(** * E-grievance platform: a shallow embedding of [app.py]

    The development follows the source file top to bottom: the Python
    values that reach the handlers, the three module-level tables, the
    [re.fullmatch] validator, the keyword classifier, the load-balancing
    router, and the two request handlers.

    Conventions.
    - A Python [str] inside a [pyval] is a [string] whose characters are
      code points below 256; on that range [str.lower] is the map given by
      [lower_char].  The validator, whose [\d] matches decimal digits well
      beyond that range, is also given on strings of any code points
      ([validate_citizen_input_u], over [list N]), and its results are
      stated there; the classifier and the handlers stay on [pyval].
    - A Python [int] is a [Z].
    - A parsed JSON body is a [pyval]; JSON numbers with a fractional part
      are outside the model.
    - [random.randint(0, 2)], [time.time()] and the built-in [hash] are
      inputs of the functions that call them.
    - [logging] calls write to the process log only and are left out. *)

From Stdlib Require Import ZArith Ascii String.
From stdpp Require Import base option list gmap strings fin_maps pretty.

Set Warnings "-register-all".
Set Default Proof Using "Type".

Open Scope Z_scope.

(** ** Python values and exceptions *)

Inductive pyval :=
| VNone
| VBool (b : bool)
| VInt (z : Z)
| VStr (s : string)
| VList (l : list pyval)
| VDict (m : gmap string pyval).

Inductive exn :=
| AttributeError   (* [.get] or [.lower] on a value that lacks it *)
| TypeError        (* [re.fullmatch] on a non-string, unhashable dict key *)
| KeyError
| ValueError.

Inductive result (A : Type) :=
| Ok (a : A)
| Raise (e : exn).
Arguments Ok {A} a.
Arguments Raise {A} e.

#[global] Instance result_ret : MRet result := λ A a, Ok a.
#[global] Instance result_bind : MBind result := λ A B f m,
  match m with
  | Ok a => f a
  | Raise e => Raise e
  end.

(** Truth value of an object, as tested by [not x] and [if x]. *)
Definition truthy (v : pyval) : bool :=
  match v with
  | VNone => false
  | VBool b => b
  | VInt z => negb (z =? 0)
  | VStr s => negb (String.eqb s "")
  | VList l => match l with [] => false | _ => true end
  | VDict m => negb (bool_decide (m = ∅))
  end.

(** [d.get(key, default)]: only a dict has the method. *)
Definition dict_get (d : pyval) (key : string) (dflt : pyval) : result pyval :=
  match d with
  | VDict m => Ok (default dflt (m !! key))
  | _ => Raise AttributeError
  end.

(** ** Strings *)

Definition code (c : ascii) : N := N_of_ascii c.

Definition in_range (lo hi c : ascii) : bool :=
  ((code lo <=? code c) && (code c <=? code hi))%N.

Fixpoint str_all (f : ascii → bool) (s : string) : bool :=
  match s with
  | EmptyString => true
  | String c s' => f c && str_all f s'
  end.

Fixpoint str_map (f : ascii → ascii) (s : string) : string :=
  match s with
  | EmptyString => EmptyString
  | String c s' => String (f c) (str_map f s')
  end.

(** [str.lower] on one code point below 256: A-Z, and the upper-case
    letters of the Latin-1 block (U+00C0-U+00DE without U+00D7). *)
Definition lower_char (c : ascii) : ascii :=
  let n := code c in
  if ((65 <=? n) && (n <=? 90) || (192 <=? n) && (n <=? 214)
      || (216 <=? n) && (n <=? 222))%N
  then ascii_of_N (n + 32) else c.

Definition lower (s : string) : string := str_map lower_char s.

(** [needle in hay] on strings. *)
Fixpoint contains (needle hay : string) : bool :=
  String.prefix needle hay ||
  match hay with
  | EmptyString => false
  | String _ hay' => contains needle hay'
  end.

(** [s.endswith(suffix)]. *)
Fixpoint endswith (s suffix : string) : bool :=
  String.eqb s suffix ||
  match s with
  | EmptyString => false
  | String _ s' => endswith s' suffix
  end.

(** [s.split(sep)] for a one-character separator.  The list Python returns
    is never empty; it is kept as its first piece and the remaining ones. *)
Fixpoint split (sep : ascii) (s : string) : string * list string :=
  match s with
  | EmptyString => (EmptyString, [])
  | String c s' =>
      let '(h, t) := split sep s' in
      if Ascii.eqb c sep then (EmptyString, h :: t) else (String c h, t)
  end.

(** [pieces[0]] and [pieces[-1]]. *)
Definition first_piece (p : string * list string) : string := p.1.
Definition last_piece (p : string * list string) : string := List.last p.2 p.1.

(** ** The fragment of [re] used by the validator

    Every pattern in the source is a sequence of anchors and of character
    classes under a counted, greedy repetition; a literal is a class of one
    character repeated once. *)

(** The code points of [unicodedata] category Nd, the decimal digits, as
    inclusive ranges (Unicode 14.0): the class [\d] of a [str] pattern
    compiled without [re.ASCII]. *)
Definition decimal_digit_ranges : list (N * N) :=
  [(48, 57); (1632, 1641); (1776, 1785); (1984, 1993); (2406, 2415);
    (2534, 2543); (2662, 2671); (2790, 2799); (2918, 2927); (3046, 3055);
    (3174, 3183); (3302, 3311); (3430, 3439); (3558, 3567); (3664, 3673);
    (3792, 3801); (3872, 3881); (4160, 4169); (4240, 4249); (6112, 6121);
    (6160, 6169); (6470, 6479); (6608, 6617); (6784, 6793); (6800, 6809);
    (6992, 7001); (7088, 7097); (7232, 7241); (7248, 7257); (42528, 42537);
    (43216, 43225); (43264, 43273); (43472, 43481); (43504, 43513);
    (43600, 43609); (44016, 44025); (65296, 65305); (66720, 66729);
    (68912, 68921); (69734, 69743); (69872, 69881); (69942, 69951);
    (70096, 70105); (70384, 70393); (70736, 70745); (70864, 70873);
    (71248, 71257); (71360, 71369); (71472, 71481); (71904, 71913);
    (72016, 72025); (72784, 72793); (73040, 73049); (73120, 73129);
    (92768, 92777); (92864, 92873); (93008, 93017); (120782, 120831);
    (123200, 123209); (123632, 123641); (125264, 125273);
    (130032, 130041) ]%N.

Definition is_unicode_decimal (c : N) : bool :=
  existsb (λ r : N * N, (r.1 <=? c) && (c <=? r.2))%N decimal_digit_ranges.

Inductive citem :=
| CRange (lo hi : ascii)
| CChar (c : ascii)
| CDigit.                                         (* \d *)

Definition cset := list citem.

Definition citem_mem (i : citem) (c : ascii) : bool :=
  match i with
  | CRange lo hi => in_range lo hi c
  | CChar d => Ascii.eqb c d
  | CDigit => is_unicode_decimal (code c)
  end.

Definition cset_mem (cs : cset) (c : ascii) : bool :=
  existsb (λ i, citem_mem i c) cs.

Inductive atom :=
| Bol                                             (* ^ *)
| Eol                                             (* $ *)
| Rep (cls : cset) (lo : nat) (hi : option nat).   (* cls{lo,hi} *)

Definition Lit (c : ascii) : atom := Rep [CChar c] 1 (Some 1%nat).
Definition Plus (cls : cset) : atom := Rep cls 1 None.

Definition newline : ascii := ascii_of_N 10.

Definition str_empty (s : string) : bool :=
  match s with EmptyString => true | _ => false end.

(** Greedy repetition with backtracking: take one more character of the
    class while allowed, and fall back to stopping here. *)
Fixpoint rep_greedy (cls : ascii → bool) (k : nat → string → bool)
    (lo : nat) (hi : option nat) (pos : nat) (s : string) : bool :=
  let stop := Nat.eqb lo 0 && k pos s in
  match hi with
  | Some O => stop
  | _ =>
      match s with
      | String c s' =>
          if cls c
          then rep_greedy cls k (Nat.pred lo) (Nat.pred <$> hi) (S pos) s' || stop
          else stop
      | EmptyString => stop
      end
  end.

(** Matching from position [pos], with [s] the rest of the subject; the
    match has to end where the subject ends ([fullmatch]).  Without
    [re.MULTILINE], [$] holds at the end and before a final newline. *)
Fixpoint match_items (p : list atom) : nat → string → bool :=
  match p with
  | [] => λ _ s, str_empty s
  | Bol :: p' => λ pos s, Nat.eqb pos 0 && match_items p' pos s
  | Eol :: p' => λ pos s,
      (str_empty s || String.eqb s (String newline EmptyString))
      && match_items p' pos s
  | Rep cls lo hi :: p' => rep_greedy (cset_mem cls) (match_items p') lo hi
  end.

Definition fullmatch (p : list atom) (s : string) : bool := match_items p 0 s.

(** [re.fullmatch(pattern, v)] as a truth value; a non-string subject
    raises. *)
Definition re_fullmatch (p : list atom) (v : pyval) : result bool :=
  match v with
  | VStr s => Ok (fullmatch p s)
  | _ => Raise TypeError
  end.

(** ** Module-level tables *)

(** A dict whose iteration order matters: the items in insertion order. *)
Definition OFFICER_WORKLOADS : list (string * Z) :=
  [ ("Officer_A_Water", 12);
    ("Officer_B_Water", 5);
    ("Officer_C_Roads", 9);
    ("Officer_D_Roads", 15) ].

Definition DEPARTMENT_MAPPING : gmap string string :=
  list_to_map
  [ ("Road Maintenance", "Public_Works_Dept");
    ("Water Supply", "Water_Supply_Dept");
    ("Sanitation", "Sanitation_Dept");
    ("Public Safety", "Law_Enforcement_Dept");
    ("Illegal Construction", "Town_Planning_Dept");
    ("Public Transport", "Transport_Dept");
    ("Health Services", "Health_Dept");
    ("Education Facilities", "Education_Dept");
    ("Noise Pollution", "Environment_Dept");
    ("Electricity", "Power_Dept");
    ("Drainage", "Water_Supply_Dept");
    ("Parks", "Urban_Development_Dept");
    ("Document Delays", "General_Admin_Dept");
    ("Official Misconduct", "Vigilance_Dept");
    ("Animal Control", "Animal_Control_Dept");
    ("Tree Felling", "Environment_Dept");
    ("Traffic Signals", "Traffic_Police_Dept");
    ("Taxes", "Revenue_Dept");
    ("Social Welfare", "Social_Welfare_Dept");
    ("Cyber", "IT_Dept");
    ("Other", "General_Admin_Dept") ].

Record official := {
  password_hash : string;
  govt_id : string;
  department : string;
  name : string
}.

Definition OFFICIALS_DB : gmap string official :=
  list_to_map
  [ ("john.doe@gov.in",
     {| password_hash := "hashed_password_doe"; govt_id := "GOV1001A";
        department := "Water_Supply_Dept"; name := "John Doe" |});
    ("sara.smith@gov.in",
     {| password_hash := "hashed_password_smith"; govt_id := "GOV2002B";
        department := "Public_Works_Dept"; name := "Sara Smith" |}) ].

(** ** Validation *)

Definition digit_cls : cset := [CDigit].                               (* \d *)
Definition id_cls : cset := [CRange "0" "9"; CRange "A" "Z"].          (* [0-9A-Z] *)
Definition local_cls : cset :=                               (* [a-zA-Z0-9._%+-] *)
  [CRange "a" "z"; CRange "A" "Z"; CRange "0" "9";
   CChar "."; CChar "_"; CChar "%"; CChar "+"; CChar "-"].
Definition domain_cls : cset :=                                 (* [a-zA-Z0-9.-] *)
  [CRange "a" "z"; CRange "A" "Z"; CRange "0" "9"; CChar "."; CChar "-"].
Definition alpha_cls : cset := [CRange "a" "z"; CRange "A" "Z"].       (* [a-zA-Z] *)

(** [^\d{10}$] *)
Definition phone_re : list atom :=
  [Bol; Rep digit_cls 10 (Some 10%nat); Eol].

(** [^[0-9A-Z]{10,12}$] *)
Definition public_id_re : list atom :=
  [Bol; Rep id_cls 10 (Some 12%nat); Eol].

(** [^[a-zA-Z0-9._%+-]+@[a-zA-Z0-9.-]+\.[a-zA-Z]{2,}$] *)
Definition email_re : list atom :=
  [Bol; Plus local_cls; Lit "@"; Plus domain_cls; Lit ".";
   Rep alpha_cls 2 None; Eol].

Definition set_if (b : bool) (k v : string) (errors : gmap string string)
    : gmap string string :=
  if b then <[k := v]> errors else errors.

Definition validate_citizen_input (data : pyval) : result (gmap string string) :=
  phone ← dict_get data "phone" (VStr "");
  public_id ← dict_get data "public_id" (VStr "");
  email ← dict_get data "email" (VStr "");
  let errors : gmap string string := ∅ in
  m ← re_fullmatch phone_re phone;
  let errors :=
    set_if (negb m) "phone" "Phone number must be exactly 10 digits." errors in
  m ← re_fullmatch public_id_re public_id;
  let errors :=
    set_if (negb m) "public_id"
      "Public ID must be 10 to 12 alphanumeric characters." errors in
  m ← re_fullmatch email_re email;
  let errors := set_if (negb m) "email" "Invalid email format." errors in
  mret errors.

(** *** The validator on strings of any code points

    A [pyval] string stops at code point 255.  The three validated fields
    are given here over all code points, so that [\d] is seen on the
    decimal digits of every script. *)

(** The code points of a string. *)
Fixpoint codes (s : string) : list N :=
  match s with
  | EmptyString => []
  | String c s' => code c :: codes s'
  end.

Definition citem_umem (i : citem) (c : N) : bool :=
  match i with
  | CRange lo hi => ((code lo <=? c) && (c <=? code hi))%N
  | CChar d => (c =? code d)%N
  | CDigit => is_unicode_decimal c
  end.

Definition cset_umem (cs : cset) (c : N) : bool :=
  existsb (λ i, citem_umem i c) cs.

Fixpoint urep_greedy (cls : N → bool) (k : nat → list N → bool)
    (lo : nat) (hi : option nat) (pos : nat) (s : list N) : bool :=
  let stop := Nat.eqb lo 0 && k pos s in
  match hi with
  | Some O => stop
  | _ =>
      match s with
      | c :: s' =>
          if cls c
          then urep_greedy cls k (Nat.pred lo) (Nat.pred <$> hi) (S pos) s' || stop
          else stop
      | [] => stop
      end
  end.

Definition is_nil (s : list N) : bool :=
  match s with [] => true | _ => false end.

Definition is_newline_only (s : list N) : bool :=
  match s with [c] => (c =? 10)%N | _ => false end.

Fixpoint umatch_items (p : list atom) : nat → list N → bool :=
  match p with
  | [] => λ _ s, is_nil s
  | Bol :: p' => λ pos s, Nat.eqb pos 0 && umatch_items p' pos s
  | Eol :: p' => λ pos s,
      (is_nil s || is_newline_only s) && umatch_items p' pos s
  | Rep cls lo hi :: p' => urep_greedy (cset_umem cls) (umatch_items p') lo hi
  end.

Definition ufullmatch (p : list atom) (s : list N) : bool := umatch_items p 0 s.

(** A value of the body as [re.fullmatch] sees it: a [str] of any code
    points, or a value that is not a [str]. *)
Inductive field_value :=
| FStr (u : list N)
| FOther.

Definition field_of (v : pyval) : field_value :=
  match v with
  | VStr s => FStr (codes s)
  | _ => FOther
  end.

Definition re_fullmatch_u (p : list atom) (v : field_value) : result bool :=
  match v with
  | FStr u => Ok (ufullmatch p u)
  | FOther => Raise TypeError
  end.

(** [validate_citizen_input] on a dict body whose strings may hold any
    code point. *)
Definition validate_citizen_input_u (data : gmap string field_value)
    : result (gmap string string) :=
  let phone := default (FStr []) (data !! "phone") in
  let public_id := default (FStr []) (data !! "public_id") in
  let email := default (FStr []) (data !! "email") in
  let errors : gmap string string := ∅ in
  m ← re_fullmatch_u phone_re phone;
  let errors :=
    set_if (negb m) "phone" "Phone number must be exactly 10 digits." errors in
  m ← re_fullmatch_u public_id_re public_id;
  let errors :=
    set_if (negb m) "public_id"
      "Public ID must be 10 to 12 alphanumeric characters." errors in
  m ← re_fullmatch_u email_re email;
  let errors := set_if (negb m) "email" "Invalid email format." errors in
  mret errors.

(** The error dict as a function of which checks failed. *)
Definition error_set (bad_phone bad_public_id bad_email : bool)
    : gmap string string :=
  set_if bad_email "email" "Invalid email format."
    (set_if bad_public_id "public_id"
       "Public ID must be 10 to 12 alphanumeric characters."
    (set_if bad_phone "phone" "Phone number must be exactly 10 digits." ∅)).

(** ** Classification and routing *)

(** [f"GRV-{int(time.time() * 1000) % 1000000}"], with [now_ms] the value
    of [int(time.time() * 1000)]. *)
Definition generate_unique_id (now_ms : Z) : string :=
  "GRV-" +:+ pretty (now_ms `mod` 1000000).

(** [v.lower()] and [v.split(sep)]: methods of [str] only. *)
Definition py_lower (v : pyval) : result string :=
  match v with
  | VStr s => Ok (lower s)
  | _ => Raise AttributeError
  end.

Definition py_split (sep : ascii) (v : pyval) : result (string * list string) :=
  match v with
  | VStr s => Ok (split sep s)
  | _ => Raise AttributeError
  end.

Definition critical_words : list string :=
  ["dangerous"; "urgent"; "fatal"; "flooding"].

(** [jitter] is the value drawn by [random.randint(0, 2)]. *)
Definition ai_categorize_and_score (jitter : Z)
    (description citizen_category : pyval) : result (pyval * Z) :=
  keywords ← py_lower description;
  let refined_category :=
    if contains "pothole" keywords || contains "cracked road" keywords
    then VStr "Pothole_Major"
    else if contains "leakage" keywords || contains "no water" keywords
    then VStr "Water_Leakage_Critical"
    else citizen_category in
  let critical_keywords_found :=
    length (filter (λ word, contains word keywords = true) critical_words) in
  let priority_score := 3 + jitter + Z.of_nat critical_keywords_found * 2 in
  refined_lower ← py_lower refined_category;
  bump ← (if contains "critical" refined_lower then Ok true
          else citizen_lower ← py_lower citizen_category;
               Ok (contains "safety" citizen_lower));
  let priority_score := if bump : bool then priority_score + 2 else priority_score in
  let priority_score := Z.min 10 priority_score in
  Ok (refined_category, priority_score).

(** The workload dict: its items in iteration order, keys pairwise
    distinct. *)
Abbreviation workloads := (list (string * Z)).

Fixpoint items_get (k : string) (W : workloads) : option Z :=
  match W with
  | [] => None
  | (k', v) :: W' => if String.eqb k k' then Some v else items_get k W'
  end.

(** [W[k] = v]: an existing key keeps its place, a new one goes last. *)
Fixpoint items_set (k : string) (v : Z) (W : workloads) : workloads :=
  match W with
  | [] => [(k, v)]
  | (k', v') :: W' =>
      if String.eqb k k' then (k', v) :: W' else (k', v') :: items_set k v W'
  end.

(** [min(d, key=d.get)] on a non-empty dict: the first key, in iteration
    order, among those of least value. *)
Fixpoint min_item (best : string * Z) (rest : workloads) : string * Z :=
  match rest with
  | [] => best
  | kv :: rest' => min_item (if kv.2 <? best.2 then kv else best) rest'
  end.

Definition target_department_of (base_category : string) : string :=
  default "General_Admin_Dept" (DEPARTMENT_MAPPING !! base_category).

Definition officers_of (target_department : string) (W : workloads) : workloads :=
  let dept_prefix := first_piece (split "_" target_department) in
  filter (λ kv, endswith kv.1 (first_piece (split "_" dept_prefix)) = true) W.

(** The router reads and updates the global [OFFICER_WORKLOADS], threaded
    here as [W]; the result is the pair (department, assignee). *)
Definition smart_route_and_assign (refined_category : pyval)
    (priority_score : Z) (location_coords : pyval) (W : workloads)
    : result (string * string) * workloads :=
  match py_split "_" refined_category with
  | Raise e => (Raise e, W)
  | Ok pieces =>
      let base_category := first_piece pieces in
      let target_department := target_department_of base_category in
      match officers_of target_department W with
      | [] => (Ok (target_department, target_department +:+ "_Manager"), W)
      | first :: others =>
          if 8 <=? priority_score
          then (Ok (target_department, target_department +:+ "_Manager"), W)
          else
            let assigned_officer := (min_item first others).1 in
            match items_get assigned_officer W with
            | None => (Raise KeyError, W)
            | Some n =>
                (Ok (target_department, assigned_officer),
                 items_set assigned_officer (n + 1) W)
            end
      end
  end.

(** ** Request handlers *)

Inductive submit_response :=
| SubmitAccepted (tracking_id status assigned_to : string) (priority : Z)
| SubmitRejected (message : string) (errors : gmap string string)
| SubmitFailed (e : exn).

Definition submit_status (r : submit_response) : Z :=
  match r with
  | SubmitAccepted _ _ _ _ => 200
  | SubmitRejected _ _ => 400
  | SubmitFailed _ => 500
  end.

Definition submit_success (r : submit_response) : bool :=
  match r with
  | SubmitAccepted _ _ _ _ => true
  | _ => false
  end.

(** The body of the [try] block after validation succeeded. *)
Definition process_complaint (now_ms jitter : Z) (complaint_data : pyval)
    (W : workloads) : result submit_response * workloads :=
  let tracking_id := generate_unique_id now_ms in
  match
    description ← dict_get complaint_data "description" (VStr "");
    category ← dict_get complaint_data "category" (VStr "Other");
    ai_categorize_and_score jitter description category
  with
  | Raise e => (Raise e, W)
  | Ok (refined_category, priority_score) =>
      match dict_get complaint_data "location_coords" (VStr "N/A") with
      | Raise e => (Raise e, W)
      | Ok location_coords =>
          match smart_route_and_assign refined_category priority_score
                  location_coords W with
          | (Raise e, W') => (Raise e, W')
          | (Ok (target_department, assigned_officer), W') =>
              (Ok (SubmitAccepted tracking_id "Under Review" assigned_officer
                     priority_score), W')
          end
      end
  end.

Definition submit_complaint (now_ms jitter : Z) (complaint_data : pyval)
    (W : workloads) : submit_response * workloads :=
  match validate_citizen_input complaint_data with
  | Raise e => (SubmitFailed e, W)
  | Ok validation_errors =>
      if negb (bool_decide (validation_errors = ∅))
      then (SubmitRejected "One or more input fields failed server validation."
              validation_errors, W)
      else
        match process_complaint now_ms jitter complaint_data W with
        | (Raise e, W') => (SubmitFailed e, W')
        | (Ok r, W') => (r, W')
        end
  end.

Inductive login_response :=
| LoginOk (token department official_name : string)
| LoginMissingFields
| LoginInvalidCredentials
| LoginGovtIdMismatch.

Definition login_status (r : login_response) : Z :=
  match r with
  | LoginOk _ _ _ => 200
  | LoginMissingFields => 400
  | LoginInvalidCredentials | LoginGovtIdMismatch => 401
  end.

Definition login_success (r : login_response) : bool :=
  match r with
  | LoginOk _ _ _ => true
  | _ => false
  end.

Definition login_message (r : login_response) : string :=
  match r with
  | LoginOk _ _ _ => "Login successful."
  | LoginMissingFields => "Missing required fields (Username, Password, Govt ID)."
  | LoginInvalidCredentials => "Authentication failed: Invalid credentials."
  | LoginGovtIdMismatch => "Authentication failed: Unique Government ID mismatch."
  end.

(** [official_record['govt_id']], apart from the request field of that name. *)
Definition stored_govt_id (official_record : official) : string :=
  govt_id official_record.

(** [stored != v] for a stored string. *)
Definition str_ne (stored : string) (v : pyval) : bool :=
  match v with
  | VStr s => negb (String.eqb stored s)
  | _ => true
  end.

Section login.
(** The built-in [hash] on strings, fixed for the life of the process. *)
Variable py_hash : string → Z.

(** [Raise] is an exception leaving the handler. *)
Definition official_login (data : pyval) : result login_response :=
  username ← dict_get data "username" VNone;
  password ← dict_get data "password" VNone;
  govt_id ← dict_get data "govt_id" VNone;
  if negb (truthy username) || negb (truthy password) || negb (truthy govt_id)
  then Ok LoginMissingFields
  else
    match username with
    | VList _ | VDict _ => Raise TypeError        (* unhashable key *)
    | VNone | VBool _ | VInt _ => Ok LoginInvalidCredentials
    | VStr user =>
        match OFFICIALS_DB !! user with
        | None => Ok LoginInvalidCredentials
        | Some official_record =>
            if negb (String.eqb (password_hash official_record)
                       ("hashed_password_" +:+
                        last_piece (split "." (first_piece (split "@" user)))))
            then Ok LoginInvalidCredentials
            else if str_ne (stored_govt_id official_record) govt_id
            then Ok LoginGovtIdMismatch
            else
              let session_token :=
                "JWT." +:+ department official_record +:+ "."
                +:+ pretty (py_hash user) in
              Ok (LoginOk session_token (department official_record)
                    (name official_record))
        end
    end.
End login.

(** ** Requests served one after another *)

(** The sum of the open-case counts of a table. *)
Definition total_open_cases (W : workloads) : Z :=
  foldr (λ kv acc, kv.2 + acc) 0 W.

(** Routing calls, each a category and a score, run to completion in
    turn on the table left by the one before. *)
Fixpoint route_all (calls : list (string * Z)) (W : workloads) : workloads :=
  match calls with
  | [] => W
  | (refined_category, priority_score) :: calls' =>
      route_all calls'
        (smart_route_and_assign (VStr refined_category) priority_score
           (VStr "N/A") W).2
  end.

(** ** Requests used in the statements *)

(** The submission of the end-to-end scenario. *)
Definition scenario : pyval :=
  VDict (list_to_map
    [ ("description", VStr "Major pothole causing dangerous flooding");
      ("category", VStr "Road Maintenance");
      ("phone", VStr "9876543210");
      ("public_id", VStr "AB12345678");
      ("email", VStr "a@b.com") ]).

(** A login body with the three fields. *)
Definition login_request (username password govt_id : pyval) : pyval :=
  VDict (list_to_map
    [ ("username", username); ("password", password); ("govt_id", govt_id) ]).

(** ** What the validator's patterns say, in the words of the specification *)

Definition is_decimal_digit (c : ascii) : bool := in_range "0" "9" c.
Definition is_upper_letter (c : ascii) : bool := in_range "A" "Z" c.
Definition is_letter (c : ascii) : bool := in_range "a" "z" c || in_range "A" "Z" c.
Definition is_id_char (c : ascii) : bool := is_decimal_digit c || is_upper_letter c.
Definition is_local_char (c : ascii) : bool :=
  is_letter c || is_decimal_digit c
  || bool_decide (c ∈ ["."; "_"; "%"; "+"; "-"]%char).
Definition is_domain_char (c : ascii) : bool :=
  is_letter c || is_decimal_digit c || bool_decide (c ∈ ["."; "-"]%char).

(** Exactly 10 decimal digits. *)
Definition phone_shape (s : string) : Prop :=
  String.length s = 10%nat ∧ str_all is_decimal_digit s = true.

(** 10 to 12 characters, each a digit or an upper-case letter A-Z. *)
Definition public_id_shape (s : string) : Prop :=
  (10 ≤ String.length s ≤ 12)%nat ∧ str_all is_id_char s = true.

(** local@domain.tld: a non-empty local part, a non-empty domain, a dot and
    a final label of at least two letters. *)
Definition email_shape (s : string) : Prop :=
  ∃ loc dom tld : string,
    s = loc +:+ "@" +:+ dom +:+ "." +:+ tld
    ∧ (1 ≤ String.length loc)%nat ∧ str_all is_local_char loc = true
    ∧ (1 ≤ String.length dom)%nat ∧ str_all is_domain_char dom = true
    ∧ (2 ≤ String.length tld)%nat ∧ str_all is_letter tld = true.

(** [needle] occurs in [hay]. *)
Definition occurs_in (needle hay : string) : Prop :=
  ∃ before after : string, hay = before +:+ needle +:+ after.

(** A field of the body that is a string, or is missing and read as [""]. *)
Definition text_field (m : gmap string pyval) (k s : string) : Prop :=
  m !! k = Some (VStr s) ∨ (m !! k = None ∧ s = "").

(** At most [hi], when there is a bound. *)
Definition within (hi : option nat) (n : nat) : Prop :=
  match hi with
  | Some h => (n ≤ h)%nat
  | None => True
  end.

(** ** The three shapes over all code points *)

Definition is_ascii_digit_code (c : N) : bool := ((48 <=? c) && (c <=? 57))%N.
Definition is_upper_code (c : N) : bool := ((65 <=? c) && (c <=? 90))%N.
Definition is_lower_code (c : N) : bool := ((97 <=? c) && (c <=? 122))%N.
Definition is_letter_code (c : N) : bool := is_lower_code c || is_upper_code c.
Definition is_id_code (c : N) : bool := is_ascii_digit_code c || is_upper_code c.
Definition one_of (l : list ascii) (c : N) : bool :=
  existsb (λ d, (c =? code d)%N) l.
Definition is_local_code (c : N) : bool :=
  is_letter_code c || is_ascii_digit_code c
  || one_of ["."; "_"; "%"; "+"; "-"]%char c.
Definition is_domain_code (c : N) : bool :=
  is_letter_code c || is_ascii_digit_code c || one_of ["."; "-"]%char c.

(** Exactly 10 characters, each a decimal digit of some script: 0-9, or
    for instance the Arabic-Indic or the Devanagari digits. *)
Definition uphone_shape (u : list N) : Prop :=
  length u = 10%nat ∧ forallb is_unicode_decimal u = true.

(** Exactly 10 characters, each one of 0-9. *)
Definition ascii_phone_shape (u : list N) : Prop :=
  length u = 10%nat ∧ forallb is_ascii_digit_code u = true.

(** 10 to 12 characters, each one of 0-9 or an upper-case letter A-Z. *)
Definition upublic_id_shape (u : list N) : Prop :=
  (10 ≤ length u ≤ 12)%nat ∧ forallb is_id_code u = true.

(** local@domain.tld over code points. *)
Definition uemail_shape (u : list N) : Prop :=
  ∃ loc dom tld : list N,
    u = loc ++ code "@" :: dom ++ code "." :: tld
    ∧ (1 ≤ length loc)%nat ∧ forallb is_local_code loc = true
    ∧ (1 ≤ length dom)%nat ∧ forallb is_domain_code dom = true
    ∧ (2 ≤ length tld)%nat ∧ forallb is_letter_code tld = true.

(** A field that is a string of any code points, or is missing and read as
    the empty string. *)
Definition utext_field (data : gmap string field_value) (k : string)
    (u : list N) : Prop :=
  data !! k = Some (FStr u) ∨ (data !! k = None ∧ u = []).

(** ** Further notions used in the statements *)

(** The number of occurrences of a character. *)
Fixpoint str_count (c : ascii) (s : string) : nat :=
  match s with
  | EmptyString => 0%nat
  | String d s' => ((if Ascii.eqb d c then 1 else 0) + str_count c s')%nat
  end.

(** A value that is not a [str]. *)
Definition not_str (v : pyval) : bool :=
  match v with
  | VStr _ => false
  | _ => true
  end.

(** A list or a dict: the values that cannot be a dict key. *)
Definition unhashable (v : pyval) : bool :=
  match v with
  | VList _ | VDict _ => true
  | _ => false
  end.

(** A character an accepted email may hold. *)
Definition is_email_char (c : ascii) : bool :=
  is_local_char c || Ascii.eqb c "@".

(** Case analysis over the 256 characters. *)
Ltac by_all_chars c := destruct c as [[] [] [] [] [] [] [] []]; reflexivity.

(** ** Strings: basic facts *)

#[local] Arguments String.append : simpl nomatch.

Lemma str_empty_true s : str_empty s = true ↔ s = "".
Proof. destruct s; simpl; split; congruence. Qed.

Lemma app_empty_inv (a b : string) : a +:+ b = "" → a = "" ∧ b = "".
Proof. destruct a; simpl; [tauto | discriminate]. Qed.

Lemma length_zero_empty (a : string) : String.length a = 0%nat → a = "".
Proof. destruct a; simpl; [done | discriminate]. Qed.

Lemma str_all_app f (a b : string) :
  str_all f (a +:+ b) = str_all f a && str_all f b.
Proof.
  induction a as [|c a IH]; simpl; [done|].
  rewrite IH. by rewrite andb_assoc.
Qed.

Lemma str_all_ext f g s : (∀ c, f c = g c) → str_all f s = str_all g s.
Proof. intros E. induction s as [|c s IH]; simpl; [done|]. by rewrite E, IH. Qed.

Lemma prefix_spec (p s : string) :
  String.prefix p s = true ↔ ∃ rest, s = p +:+ rest.
Proof.
  revert s. induction p as [|c p IH]; intros s; simpl.
  - destruct s; simpl; split; eauto.
  - destruct s as [|d s]; simpl.
    + split; [done | intros [r Hr]; discriminate].
    + destruct (ascii_dec c d) as [->|Hne].
      * rewrite IH. split; intros [r Hr]; exists r; simpl in *; congruence.
      * split; [done | intros [r Hr]; simpl in Hr; congruence].
Qed.

Lemma contains_unfold (needle hay : string) :
  contains needle hay =
  String.prefix needle hay ||
  match hay with
  | EmptyString => false
  | String _ hay' => contains needle hay'
  end.
Proof. by destruct hay. Qed.

Lemma contains_spec (needle hay : string) :
  contains needle hay = true ↔ occurs_in needle hay.
Proof.
  unfold occurs_in. induction hay as [|c hay IH]; rewrite contains_unfold.
  - rewrite orb_false_r, prefix_spec. split.
    + intros [r Hr]. by exists "", r.
    + intros (a & b & Hab). destruct a; simpl in Hab; [eauto | discriminate].
  - rewrite orb_true_iff, prefix_spec, IH. split.
    + intros [[r Hr] | (a & b & Hab)].
      * by exists "", r.
      * exists (String c a), b. simpl. by rewrite Hab.
    + intros (a & b & Hab). destruct a as [|d a]; simpl in Hab.
      * left. eauto.
      * right. exists a, b. congruence.
Qed.

(** ** The matcher against the language of a pattern *)

Lemma rep_greedy_spec cls k s : ∀ lo hi pos,
  rep_greedy cls k lo hi pos s = true ↔
  ∃ a b, s = a +:+ b ∧ (lo ≤ String.length a)%nat ∧ within hi (String.length a)
         ∧ str_all cls a = true ∧ k (pos + String.length a)%nat b = true.
Proof.
  assert (Hstop : ∀ lo hi pos t,
    Nat.eqb lo 0 && k pos t = true ↔
    ∃ a b, t = a +:+ b ∧ a = "" ∧ (lo ≤ String.length a)%nat
           ∧ within hi (String.length a) ∧ str_all cls a = true
           ∧ k (pos + String.length a)%nat b = true).
  { intros lo hi pos t. rewrite andb_true_iff, Nat.eqb_eq. split.
    - intros [-> Hk]. exists "", t. simpl. rewrite Nat.add_0_r.
      repeat split; try done. destruct hi; simpl; lia.
    - intros (a & b & -> & -> & Hlo & _ & _ & Hk). simpl in *.
      rewrite Nat.add_0_r in Hk. split; [lia | done]. }
  assert (Hshort : ∀ lo hi pos t,
    (∀ a b, t = a +:+ b → (lo ≤ String.length a)%nat →
            within hi (String.length a) → str_all cls a = true → a = "") →
    Nat.eqb lo 0 && k pos t = true ↔
    ∃ a b, t = a +:+ b ∧ (lo ≤ String.length a)%nat
           ∧ within hi (String.length a) ∧ str_all cls a = true
           ∧ k (pos + String.length a)%nat b = true).
  { intros lo hi pos t Hnil. rewrite (Hstop lo hi). split.
    - intros (a & b & ? & ? & ?). by exists a, b.
    - intros (a & b & E & Hlo & Hhi & Hall & Hk). exists a, b.
      repeat split; try done. by eapply Hnil. }
  induction s as [|c s IH]; intros lo hi pos.
  - assert (rep_greedy cls k lo hi pos "" = (Nat.eqb lo 0 && k pos "")) as ->.
    { simpl. by destruct hi as [[|h]|]. }
    apply Hshort. intros a b E _ _ _. symmetry in E.
    by apply app_empty_inv in E as [-> _].
  - destruct (decide (hi = Some 0%nat)) as [->|Hhi].
    { simpl. apply (Hshort lo (Some 0%nat)). intros a b _ _ Hle _.
      simpl in Hle. apply length_zero_empty. lia. }
    assert (rep_greedy cls k lo hi pos (String c s) =
            if cls c
            then rep_greedy cls k (Nat.pred lo) (Nat.pred <$> hi) (S pos) s
                 || (Nat.eqb lo 0 && k pos (String c s))
            else Nat.eqb lo 0 && k pos (String c s)) as ->.
    { simpl. by destruct hi as [[|h]|]. }
    destruct (cls c) eqn:Hc.
    + rewrite orb_true_iff, IH, (Hstop lo hi). split.
      * intros [(a & b & -> & Hlo & Hw & Hall & Hk) | (a & b & ? & ? & ?)].
        -- exists (String c a), b. simpl. rewrite Hc, Hall.
           rewrite Nat.add_succ_r. repeat split; try done; [lia|].
           destruct hi as [[|h]|]; simpl in *; try done. lia.
        -- by exists a, b.
      * intros (a & b & E & Hlo & Hw & Hall & Hk). destruct a as [|d a].
        -- right. by exists "", b.
        -- left. simpl in E. injection E as -> ->. exists a, b.
           simpl in Hall, Hlo, Hk, Hw. apply andb_true_iff in Hall as [_ Hall].
           rewrite Nat.add_succ_r in Hk. repeat split; try done; [lia|].
           destruct hi as [[|h]|]; simpl in *; try done. lia.
    + apply Hshort. intros a b E _ _ Hall. destruct a as [|d a]; [done|].
      simpl in E. injection E as -> ->. simpl in Hall. by rewrite Hc in Hall.
Qed.

Lemma match_rep cls lo hi p pos s :
  match_items (Rep cls lo hi :: p) pos s = true ↔
  ∃ a b, s = a +:+ b ∧ (lo ≤ String.length a)%nat ∧ within hi (String.length a)
         ∧ str_all (cset_mem cls) a = true
         ∧ match_items p (pos + String.length a)%nat b = true.
Proof. simpl. apply rep_greedy_spec. Qed.

Lemma match_eol pos s : match_items [Eol] pos s = true ↔ s = "".
Proof.
  simpl. rewrite andb_true_iff, str_empty_true. split; [tauto|].
  intros ->. done.
Qed.

Lemma match_lit c p pos s :
  match_items (Lit c :: p) pos s = true ↔
  ∃ b, s = String c b ∧ match_items p (S pos) b = true.
Proof.
  unfold Lit. rewrite match_rep. split.
  - intros (a & b & -> & Hlo & Hhi & Hall & Hk). simpl in Hhi.
    destruct a as [|d [|e a]]; simpl in *; try lia.
    rewrite orb_false_r, andb_true_r in Hall.
    apply Ascii.eqb_eq in Hall as ->. exists b.
    by rewrite Nat.add_1_r in Hk.
  - intros (b & -> & Hk). exists (String c ""), b. simpl.
    rewrite Ascii.eqb_refl, Nat.add_1_r. repeat split; try done; lia.
Qed.

Lemma match_bol p s : match_items (Bol :: p) 0 s = match_items p 0 s.
Proof. reflexivity. Qed.

Lemma app_empty_r (a : string) : a +:+ "" = a.
Proof. induction a as [|c a IH]; simpl; [done | by rewrite IH]. Qed.

(** ** The character classes of the patterns *)

Lemma digit_cls_mem c : cset_mem digit_cls c = is_decimal_digit c.
Proof. by_all_chars c. Qed.

Lemma id_cls_mem c : cset_mem id_cls c = is_id_char c.
Proof.
  unfold cset_mem, id_cls, is_id_char, is_decimal_digit, is_upper_letter.
  simpl. by rewrite orb_false_r.
Qed.

Lemma alpha_cls_mem c : cset_mem alpha_cls c = is_letter c.
Proof. unfold cset_mem, alpha_cls, is_letter. simpl. by rewrite orb_false_r. Qed.

Lemma local_cls_mem c : cset_mem local_cls c = is_local_char c.
Proof. by_all_chars c. Qed.

Lemma domain_cls_mem c : cset_mem domain_cls c = is_domain_char c.
Proof. by_all_chars c. Qed.

(** ** The three patterns *)

Lemma phone_re_spec s : fullmatch phone_re s = true ↔ phone_shape s.
Proof.
  unfold fullmatch, phone_re, phone_shape. rewrite match_bol, match_rep. split.
  - intros (a & b & -> & Hlo & Hhi & Hall & Hb). apply match_eol in Hb as ->.
    rewrite app_empty_r. simpl in Hhi.
    rewrite <- (str_all_ext _ _ a digit_cls_mem). split; [lia | done].
  - intros [Hlen Hall]. exists s, "". rewrite app_empty_r, Hlen. simpl.
    rewrite (str_all_ext _ _ s digit_cls_mem). repeat split; try done; lia.
Qed.

Lemma public_id_re_spec s : fullmatch public_id_re s = true ↔ public_id_shape s.
Proof.
  unfold fullmatch, public_id_re, public_id_shape.
  rewrite match_bol, match_rep. split.
  - intros (a & b & -> & Hlo & Hhi & Hall & Hb). apply match_eol in Hb as ->.
    rewrite app_empty_r. simpl in Hhi.
    rewrite <- (str_all_ext _ _ a id_cls_mem). split; [lia | done].
  - intros [Hlen Hall]. exists s, "". rewrite app_empty_r. simpl.
    rewrite (str_all_ext _ _ s id_cls_mem). repeat split; try done; lia.
Qed.

Lemma email_re_spec s : fullmatch email_re s = true ↔ email_shape s.
Proof.
  unfold fullmatch, email_re, email_shape, Plus. rewrite match_bol, match_rep.
  split.
  - intros (loc & r1 & -> & Hloc & _ & Hlocall & H1).
    apply match_lit in H1 as (r2 & -> & H2).
    apply match_rep in H2 as (dom & r3 & -> & Hdom & _ & Hdomall & H3).
    apply match_lit in H3 as (r4 & -> & H4).
    apply match_rep in H4 as (tld & r5 & -> & Htld & _ & Htldall & H5).
    apply match_eol in H5 as ->. rewrite app_empty_r.
    exists loc, dom, tld.
    rewrite <- (str_all_ext _ _ loc local_cls_mem).
    rewrite <- (str_all_ext _ _ dom domain_cls_mem).
    rewrite <- (str_all_ext _ _ tld alpha_cls_mem).
    by repeat split.
  - intros (loc & dom & tld & -> & Hloc & Hlocall & Hdom & Hdomall & Htld & Htldall).
    exists loc, ("@" +:+ dom +:+ "." +:+ tld).
    rewrite (str_all_ext _ _ loc local_cls_mem).
    repeat split; try done.
    apply match_lit. exists (dom +:+ "." +:+ tld). split; [done|].
    apply match_rep. exists dom, ("." +:+ tld).
    rewrite (str_all_ext _ _ dom domain_cls_mem).
    repeat split; try done.
    apply match_lit. exists tld. split; [done|].
    apply match_rep. exists tld, "".
    rewrite (str_all_ext _ _ tld alpha_cls_mem), app_empty_r.
    by repeat split.
Qed.

Lemma phone_shape_empty : ¬ phone_shape "".
Proof. intros [H _]. discriminate. Qed.

Lemma public_id_shape_empty : ¬ public_id_shape "".
Proof. intros [[H _] _]. simpl in H. lia. Qed.

Lemma email_shape_empty : ¬ email_shape "".
Proof. rewrite <- email_re_spec. done. Qed.

(** A field that is a string or is missing reaches [re.fullmatch] as a
    string. *)
Lemma text_field_get m k s :
  text_field m k s → dict_get (VDict m) k (VStr "") = Ok (VStr s).
Proof. unfold dict_get. by intros [-> | [-> ->]]. Qed.

Lemma not_true_negb (b : bool) (P : Prop) : (b = true ↔ P) → (negb b = true ↔ ¬ P).
Proof. destruct b; simpl; intros [H1 H2]; split; try done; intuition congruence. Qed.

(** The result of [validate_citizen_input] on text fields, as one
    expression. *)
Lemma validate_citizen_input_eq m phone public_id email :
  text_field m "phone" phone →
  text_field m "public_id" public_id →
  text_field m "email" email →
  validate_citizen_input (VDict m) =
  Ok (set_if (negb (fullmatch email_re email)) "email" "Invalid email format."
     (set_if (negb (fullmatch public_id_re public_id)) "public_id"
        "Public ID must be 10 to 12 alphanumeric characters."
     (set_if (negb (fullmatch phone_re phone)) "phone"
        "Phone number must be exactly 10 digits." ∅))).
Proof.
  intros H1 H2 H3. unfold validate_citizen_input.
  rewrite (text_field_get _ _ _ H1), (text_field_get _ _ _ H2),
    (text_field_get _ _ _ H3).
  reflexivity.
Qed.

Lemma error_set_empty b1 b2 b3 :
  error_set b1 b2 b3 = ∅ ↔ b1 = false ∧ b2 = false ∧ b3 = false.
Proof.
  unfold error_set. destruct b1, b2, b3; simpl; split; try done;
    try (by intros (? & ? & ?));
    intros H; exfalso; revert H; apply insert_non_empty.
Qed.

Lemma error_set_keys b1 b2 b3 :
  ("phone" ∈ dom (error_set b1 b2 b3) ↔ b1 = true)
  ∧ ("public_id" ∈ dom (error_set b1 b2 b3) ↔ b2 = true)
  ∧ ("email" ∈ dom (error_set b1 b2 b3) ↔ b3 = true).
Proof.
  unfold error_set.
  destruct b1, b2, b3; simpl; rewrite ?dom_insert_L, dom_empty_L;
    repeat split; try done; set_solver.
Qed.

(** ** Classification *)

(** On string arguments the classifier returns, and its result is the
    following expression. *)
Lemma ai_categorize_and_score_str jitter (description citizen_category : string) :
  ai_categorize_and_score jitter (VStr description) (VStr citizen_category) =
  let keywords := lower description in
  let refined_category :=
    if contains "pothole" keywords || contains "cracked road" keywords
    then "Pothole_Major"
    else if contains "leakage" keywords || contains "no water" keywords
    then "Water_Leakage_Critical"
    else citizen_category in
  let critical_keywords_found :=
    length (filter (λ word, contains word keywords = true) critical_words) in
  let priority_score := 3 + jitter + Z.of_nat critical_keywords_found * 2 in
  Ok (VStr refined_category,
      Z.min 10 (if contains "critical" (lower refined_category)
                   || contains "safety" (lower citizen_category)
                then priority_score + 2 else priority_score)).
Proof.
  unfold ai_categorize_and_score. cbn [py_lower mbind result_bind].
  destruct (contains "pothole" (lower description)
            || contains "cracked road" (lower description));
    [|destruct (contains "leakage" (lower description)
                || contains "no water" (lower description))];
    cbn [py_lower mbind result_bind];
    match goal with
    | |- context [contains "critical" ?s] => destruct (contains "critical" s)
    end; reflexivity.
Qed.

(** Whatever the arguments, a returned score is the clamped sum of the
    base, the jitter, two points per critical word found and an optional
    bump of two. *)
Lemma ai_categorize_and_score_form jitter description citizen_category r score :
  ai_categorize_and_score jitter description citizen_category = Ok (r, score) →
  ∃ (found : nat) (bump : bool),
    score = Z.min 10 (if bump then 3 + jitter + Z.of_nat found * 2 + 2
                      else 3 + jitter + Z.of_nat found * 2).
Proof.
  unfold ai_categorize_and_score.
  destruct (py_lower description) as [keywords|]; cbn [mbind result_bind];
    [|discriminate].
  match goal with
  | |- context [py_lower ?v ≫= _] => destruct (py_lower v) as [rl|]
  end; cbn [mbind result_bind]; [|discriminate].
  destruct (contains "critical" rl); cbn [mbind result_bind].
  - intros [= _ <-]. by eexists _, true.
  - destruct (py_lower citizen_category) as [cl|]; cbn [mbind result_bind];
      [|discriminate].
    intros [= _ <-]. by eexists _, _.
Qed.

(** ** The workload dict *)

Lemma items_get_elem (W : workloads) k v :
  NoDup W.*1 → (k, v) ∈ W → items_get k W = Some v.
Proof.
  induction W as [|[k' v'] W IH]; simpl; intros Hnd Hin.
  - by apply elem_of_nil in Hin.
  - apply NoDup_cons in Hnd as [Hk' Hnd].
    apply elem_of_cons in Hin as [[= -> ->] | Hin].
    + by rewrite String.eqb_refl.
    + destruct (String.eqb_spec k k') as [->|_]; [|by apply IH].
      exfalso. apply Hk'. apply list_elem_of_fmap. by exists (k', v).
Qed.

Lemma items_get_is_Some (W : workloads) k v :
  (k, v) ∈ W → is_Some (items_get k W).
Proof.
  induction W as [|[k' v'] W IH]; simpl; intros Hin.
  - by apply elem_of_nil in Hin.
  - destruct (String.eqb_spec k k') as [->|Hne]; [by eexists|].
    apply elem_of_cons in Hin as [[= -> ->] | Hin]; [done | by apply IH].
Qed.

Lemma items_get_set_eq (W : workloads) k v :
  items_get k (items_set k v W) = Some v.
Proof.
  induction W as [|[k' v'] W IH]; simpl.
  - by rewrite String.eqb_refl.
  - destruct (String.eqb_spec k k') as [->|Hne]; simpl.
    + by rewrite String.eqb_refl.
    + by destruct (String.eqb_spec k k').
Qed.

Lemma items_get_set_ne (W : workloads) k k' v :
  k ≠ k' → items_get k' (items_set k v W) = items_get k' W.
Proof.
  intros Hne. induction W as [|[k0 v0] W IH]; simpl.
  - by destruct (String.eqb_spec k' k) as [->|_].
  - destruct (String.eqb_spec k k0) as [->|Hne0]; simpl.
    + by destruct (String.eqb_spec k' k0) as [->|_].
    + by rewrite IH.
Qed.

Lemma items_set_keys (W : workloads) k v :
  is_Some (items_get k W) → (items_set k v W).*1 = W.*1.
Proof.
  induction W as [|[k' v'] W IH]; simpl; intros Hk.
  - by destruct Hk.
  - destruct (String.eqb_spec k k') as [->|Hne]; simpl; [done|].
    f_equal. by apply IH.
Qed.

(** [min] returns the first of the least items. *)
Lemma min_item_split best rest :
  ∃ before after,
    best :: rest = before ++ min_item best rest :: after
    ∧ (∀ kv, kv ∈ before → (min_item best rest).2 < kv.2)
    ∧ (∀ kv, kv ∈ after → (min_item best rest).2 ≤ kv.2).
Proof.
  revert best. induction rest as [|kv rest IH]; intros best; simpl.
  - exists [], []. split; [done|]. split; intros ? []%elem_of_nil.
  - destruct (Z.ltb_spec kv.2 best.2) as [Hlt|Hge].
    + destruct (IH kv) as (before & after & E & Hb & Ha).
      exists (best :: before), after. split; [by rewrite E|].
      split; [|done]. intros x [->|Hx]%elem_of_cons; [|by apply Hb].
      destruct before as [|y before]; simpl in E.
      * injection E as E _. rewrite <- E. done.
      * injection E as <- _. assert (kv ∈ kv :: before) as Hkv by left.
        apply Hb in Hkv. lia.
    + destruct (IH best) as (before & after & E & Hb & Ha).
      destruct before as [|y before]; simpl in E.
      * injection E as E1 E2. exists [], (kv :: rest). split.
        { simpl. rewrite <- E1. reflexivity. }
        split; [intros ? []%elem_of_nil|].
        intros x [->|Hx]%elem_of_cons.
        -- rewrite <- E1. lia.
        -- apply Ha. by rewrite <- E2.
      * injection E as <- E. exists (best :: kv :: before), after. split.
        { simpl. by rewrite <- E. }
        split; [|done].
        assert ((min_item best rest).2 < best.2) as Hbest by (apply Hb; left).
        intros x [->|[->|Hx]%elem_of_cons]%elem_of_cons; [done | lia |].
        apply Hb. by right.
Qed.

Lemma officers_of_subseteq dept (W : workloads) kv :
  kv ∈ officers_of dept W → kv ∈ W.
Proof. unfold officers_of. by intros [_ ?]%list_elem_of_filter. Qed.

(** ** Routing *)

Lemma endswith_unfold (s suffix : string) :
  endswith s suffix =
  String.eqb s suffix ||
  match s with
  | EmptyString => false
  | String _ s' => endswith s' suffix
  end.
Proof. by destruct s. Qed.

Lemma endswith_app (a b : string) : endswith (a +:+ b) b = true.
Proof.
  induction a as [|c a IH].
  - change ("" +:+ b) with b. by rewrite endswith_unfold, String.eqb_refl.
  - change (String c a +:+ b) with (String c (a +:+ b)).
    rewrite endswith_unfold. cbv beta iota. by rewrite IH, orb_true_r.
Qed.

(** The router on a string category, as one expression. *)
Lemma smart_route_and_assign_str (c : string) score loc W :
  smart_route_and_assign (VStr c) score loc W =
  let dept := target_department_of (first_piece (split "_" c)) in
  match officers_of dept W with
  | [] => (Ok (dept, dept +:+ "_Manager"), W)
  | first :: others =>
      if 8 <=? score then (Ok (dept, dept +:+ "_Manager"), W)
      else
        match items_get (min_item first others).1 W with
        | None => (Raise KeyError, W)
        | Some n =>
            (Ok (dept, (min_item first others).1),
             items_set (min_item first others).1 (n + 1) W)
        end
  end.
Proof. reflexivity. Qed.

(** The router neither adds nor removes an officer. *)
Lemma smart_route_and_assign_keys v score loc W :
  (smart_route_and_assign v score loc W).2.*1 = W.*1.
Proof.
  destruct v; try done. rewrite smart_route_and_assign_str. cbv zeta.
  destruct (officers_of _ W) as [|first others] eqn:E; [done|].
  destruct (8 <=? score); [done|].
  destruct (min_item_split first others) as (before & after & E' & _).
  assert (min_item first others ∈ W) as Hin.
  { eapply officers_of_subseteq. rewrite E, E'.
    apply elem_of_app. right. left. }
  destruct (min_item first others) as [k n0]. simpl.
  destruct (items_get_is_Some _ _ _ Hin) as [n Hn]. rewrite Hn. simpl.
  apply items_set_keys. by eexists.
Qed.

Lemma officers_of_keys dept (W W' : workloads) :
  W.*1 = W'.*1 → (officers_of dept W).*1 = (officers_of dept W').*1.
Proof.
  unfold officers_of. revert W'.
  induction W as [|[k v] W IH]; intros [|[k' v'] W'] [=]; [done|]. subst k'.
  rewrite !filter_cons. simpl.
  destruct (decide _); simpl; [f_equal|]; by apply IH.
Qed.

Lemma officers_of_same_keys dept (W W' : workloads) :
  W.*1 = W'.*1 → officers_of dept W' = [] → officers_of dept W = [].
Proof.
  intros HW H0. apply (officers_of_keys dept) in HW. rewrite H0 in HW.
  by apply fmap_nil_inv in HW.
Qed.

(** The routing decision for a string category and a score below 8 on a
    department that has officers. *)
Lemma load_balancing_step (c : string) score loc (W : workloads) :
  NoDup W.*1 → score < 8 →
  officers_of (target_department_of (first_piece (split "_" c))) W ≠ [] →
  ∃ officer n before after,
    officers_of (target_department_of (first_piece (split "_" c))) W
      = before ++ (officer, n) :: after
    ∧ (∀ kv, kv ∈ before → n < kv.2)
    ∧ (∀ kv, kv ∈ after → n ≤ kv.2)
    ∧ items_get officer W = Some n
    ∧ smart_route_and_assign (VStr c) score loc W
      = (Ok (target_department_of (first_piece (split "_" c)), officer),
         items_set officer (n + 1) W).
Proof.
  intros Hnd Hscore Hne. rewrite smart_route_and_assign_str. cbv zeta.
  destruct (officers_of _ W) as [|first others] eqn:E; [done|].
  destruct (Z.leb_spec 8 score) as [?|_]; [lia|].
  destruct (min_item_split first others) as (before & after & E' & Hb & Ha).
  assert (min_item first others ∈ W) as Hin.
  { eapply officers_of_subseteq. rewrite E, E'.
    apply elem_of_app. right. left. }
  destruct (min_item first others) as [officer n]. simpl in *.
  rewrite (items_get_elem W officer n Hnd Hin).
  exists officer, n, before, after. repeat split; auto using items_get_elem.
Qed.

(** ** Routing calls in sequence *)

Lemma total_items_set (W : workloads) k n v :
  items_get k W = Some n →
  total_open_cases (items_set k v W) = total_open_cases W - n + v.
Proof.
  unfold total_open_cases. induction W as [|[k' v'] W IH]; simpl; [done|].
  destruct (String.eqb_spec k k') as [->|Hne]; simpl.
  - intros [= ->]. lia.
  - intros H. rewrite (IH H). lia.
Qed.

(** One load-balanced call adds one open case. *)
Lemma load_balancing_total (c : string) score loc (W : workloads) :
  NoDup W.*1 → score < 8 →
  officers_of (target_department_of (first_piece (split "_" c))) W ≠ [] →
  total_open_cases (smart_route_and_assign (VStr c) score loc W).2
  = total_open_cases W + 1.
Proof.
  intros Hnd Hscore Hne.
  destruct (load_balancing_step c score loc W Hnd Hscore Hne)
    as (officer & n & _ & _ & _ & _ & _ & Hget & ->).
  simpl. rewrite (total_items_set W officer n _ Hget). lia.
Qed.

(** Calls served one after another, all below 8 and for departments with
    officers, add as many open cases as there are calls. *)
Lemma sequential_routing_total (calls : list (string * Z)) : ∀ W : workloads,
  NoDup W.*1 →
  (∀ c score, (c, score) ∈ calls →
     score < 8
     ∧ officers_of (target_department_of (first_piece (split "_" c))) W ≠ []) →
  total_open_cases (route_all calls W)
  = total_open_cases W + Z.of_nat (length calls).
Proof.
  induction calls as [|[c score] calls IH]; intros W Hnd Hcalls; simpl.
  - lia.
  - destruct (Hcalls c score ltac:(left)) as [Hscore Hne].
    pose proof (smart_route_and_assign_keys (VStr c) score (VStr "N/A") W) as Hk.
    rewrite IH.
    + rewrite load_balancing_total by done. lia.
    + by rewrite Hk.
    + intros c' score' Hin.
      destruct (Hcalls c' score' ltac:(by right)) as [Hs' Hne'].
      split; [done|]. intros Hnil. apply Hne'.
      by apply (officers_of_same_keys _ _ _ (eq_sym Hk)).
Qed.

(** ** The matcher over all code points *)

Lemma urep_greedy_spec cls k s : ∀ lo hi pos,
  urep_greedy cls k lo hi pos s = true ↔
  ∃ a b, s = a ++ b ∧ (lo ≤ length a)%nat ∧ within hi (length a)
         ∧ forallb cls a = true ∧ k (pos + length a)%nat b = true.
Proof.
  assert (Hstop : ∀ lo hi pos t,
    Nat.eqb lo 0 && k pos t = true ↔
    ∃ a b, t = a ++ b ∧ a = [] ∧ (lo ≤ length a)%nat
           ∧ within hi (length a) ∧ forallb cls a = true
           ∧ k (pos + length a)%nat b = true).
  { intros lo hi pos t. rewrite andb_true_iff, Nat.eqb_eq. split.
    - intros [-> Hk]. exists [], t. simpl. rewrite Nat.add_0_r.
      repeat split; try done. destruct hi; simpl; lia.
    - intros (a & b & -> & -> & Hlo & _ & _ & Hk). simpl in *.
      rewrite Nat.add_0_r in Hk. split; [lia | done]. }
  assert (Hshort : ∀ lo hi pos t,
    (∀ a b, t = a ++ b → (lo ≤ length a)%nat →
            within hi (length a) → forallb cls a = true → a = []) →
    Nat.eqb lo 0 && k pos t = true ↔
    ∃ a b, t = a ++ b ∧ (lo ≤ length a)%nat
           ∧ within hi (length a) ∧ forallb cls a = true
           ∧ k (pos + length a)%nat b = true).
  { intros lo hi pos t Hnil. rewrite (Hstop lo hi). split.
    - intros (a & b & ? & ? & ?). by exists a, b.
    - intros (a & b & E & Hlo & Hhi & Hall & Hk). exists a, b.
      repeat split; try done. by eapply Hnil. }
  induction s as [|c s IH]; intros lo hi pos.
  - assert (urep_greedy cls k lo hi pos [] = (Nat.eqb lo 0 && k pos [])) as ->.
    { simpl. by destruct hi as [[|h]|]. }
    apply Hshort. intros a b E _ _ _. symmetry in E.
    by apply app_eq_nil in E as [-> _].
  - destruct (decide (hi = Some 0%nat)) as [->|Hhi].
    { simpl. apply (Hshort lo (Some 0%nat)). intros a b _ _ Hle _.
      simpl in Hle. apply length_zero_iff_nil. lia. }
    assert (urep_greedy cls k lo hi pos (c :: s) =
            if cls c
            then urep_greedy cls k (Nat.pred lo) (Nat.pred <$> hi) (S pos) s
                 || (Nat.eqb lo 0 && k pos (c :: s))
            else Nat.eqb lo 0 && k pos (c :: s)) as ->.
    { simpl. by destruct hi as [[|h]|]. }
    destruct (cls c) eqn:Hc.
    + rewrite orb_true_iff, IH, (Hstop lo hi). split.
      * intros [(a & b & -> & Hlo & Hw & Hall & Hk) | (a & b & ? & ? & ?)].
        -- exists (c :: a), b. simpl. rewrite Hc, Hall.
           rewrite Nat.add_succ_r. repeat split; try done; [lia|].
           destruct hi as [[|h]|]; simpl in *; try done. lia.
        -- by exists a, b.
      * intros (a & b & E & Hlo & Hw & Hall & Hk). destruct a as [|d a].
        -- right. by exists [], b.
        -- left. simpl in E. injection E as -> ->. exists a, b.
           simpl in Hall, Hlo, Hk, Hw. apply andb_true_iff in Hall as [_ Hall].
           rewrite Nat.add_succ_r in Hk. repeat split; try done; [lia|].
           destruct hi as [[|h]|]; simpl in *; try done. lia.
    + apply Hshort. intros a b E _ _ Hall. destruct a as [|d a]; [done|].
      simpl in E. injection E as -> ->. simpl in Hall. by rewrite Hc in Hall.
Qed.

Lemma umatch_rep cls lo hi p pos s :
  umatch_items (Rep cls lo hi :: p) pos s = true ↔
  ∃ a b, s = a ++ b ∧ (lo ≤ length a)%nat ∧ within hi (length a)
         ∧ forallb (cset_umem cls) a = true
         ∧ umatch_items p (pos + length a)%nat b = true.
Proof. simpl. apply urep_greedy_spec. Qed.

Lemma umatch_eol pos s : umatch_items [Eol] pos s = true ↔ s = [].
Proof.
  simpl. rewrite andb_true_iff. split.
  - intros [_ H]. by destruct s.
  - by intros ->.
Qed.

Lemma umatch_lit c p pos s :
  umatch_items (Lit c :: p) pos s = true ↔
  ∃ b, s = code c :: b ∧ umatch_items p (S pos) b = true.
Proof.
  unfold Lit. rewrite umatch_rep. split.
  - intros (a & b & -> & Hlo & Hhi & Hall & Hk). simpl in Hhi.
    destruct a as [|d [|e a]]; simpl in *; try lia.
    rewrite orb_false_r, andb_true_r in Hall.
    apply N.eqb_eq in Hall as ->. exists b.
    by rewrite Nat.add_1_r in Hk.
  - intros (b & -> & Hk). exists [code c], b. simpl.
    rewrite N.eqb_refl, Nat.add_1_r. repeat split; try done; lia.
Qed.

Lemma forallb_ext_eq (f g : N → bool) l :
  (∀ c, f c = g c) → forallb f l = forallb g l.
Proof. intros E. induction l as [|c l IH]; simpl; [done|]. by rewrite E, IH. Qed.

Lemma digit_cls_umem c : cset_umem digit_cls c = is_unicode_decimal c.
Proof. unfold cset_umem, digit_cls. simpl. apply orb_false_r. Qed.

Lemma id_cls_umem c : cset_umem id_cls c = is_id_code c.
Proof. unfold cset_umem, id_cls. simpl. by rewrite orb_false_r. Qed.

Lemma alpha_cls_umem c : cset_umem alpha_cls c = is_letter_code c.
Proof. unfold cset_umem, alpha_cls. simpl. by rewrite orb_false_r. Qed.

Lemma local_cls_umem c : cset_umem local_cls c = is_local_code c.
Proof.
  unfold cset_umem, local_cls, is_local_code, is_letter_code, one_of. simpl.
  by rewrite !orb_false_r, !orb_assoc.
Qed.

Lemma domain_cls_umem c : cset_umem domain_cls c = is_domain_code c.
Proof.
  unfold cset_umem, domain_cls, is_domain_code, is_letter_code, one_of. simpl.
  by rewrite !orb_false_r, !orb_assoc.
Qed.

Lemma uphone_re_spec u : ufullmatch phone_re u = true ↔ uphone_shape u.
Proof.
  unfold ufullmatch, phone_re, uphone_shape.
  change (umatch_items (Bol :: ?p) 0 u) with (umatch_items p 0 u).
  rewrite umatch_rep. split.
  - intros (a & b & -> & Hlo & Hhi & Hall & Hb). apply umatch_eol in Hb as ->.
    rewrite app_nil_r. simpl in Hhi.
    rewrite <- (forallb_ext_eq _ _ a digit_cls_umem). split; [lia | done].
  - intros [Hlen Hall]. exists u, []. rewrite app_nil_r, Hlen. simpl.
    rewrite (forallb_ext_eq _ _ u digit_cls_umem). repeat split; try done; lia.
Qed.

Lemma upublic_id_re_spec u :
  ufullmatch public_id_re u = true ↔ upublic_id_shape u.
Proof.
  unfold ufullmatch, public_id_re, upublic_id_shape.
  change (umatch_items (Bol :: ?p) 0 u) with (umatch_items p 0 u).
  rewrite umatch_rep. split.
  - intros (a & b & -> & Hlo & Hhi & Hall & Hb). apply umatch_eol in Hb as ->.
    rewrite app_nil_r. simpl in Hhi.
    rewrite <- (forallb_ext_eq _ _ a id_cls_umem). split; [lia | done].
  - intros [Hlen Hall]. exists u, []. rewrite app_nil_r. simpl.
    rewrite (forallb_ext_eq _ _ u id_cls_umem). repeat split; try done; lia.
Qed.

Lemma uemail_re_spec u : ufullmatch email_re u = true ↔ uemail_shape u.
Proof.
  unfold ufullmatch, email_re, uemail_shape, Plus.
  change (umatch_items (Bol :: ?p) 0 u) with (umatch_items p 0 u).
  rewrite umatch_rep. split.
  - intros (loc & r1 & -> & Hloc & _ & Hlocall & H1).
    apply umatch_lit in H1 as (r2 & -> & H2).
    apply umatch_rep in H2 as (dom & r3 & -> & Hdom & _ & Hdomall & H3).
    apply umatch_lit in H3 as (r4 & -> & H4).
    apply umatch_rep in H4 as (tld & r5 & -> & Htld & _ & Htldall & H5).
    apply umatch_eol in H5 as ->. rewrite app_nil_r.
    exists loc, dom, tld.
    rewrite <- (forallb_ext_eq _ _ loc local_cls_umem).
    rewrite <- (forallb_ext_eq _ _ dom domain_cls_umem).
    rewrite <- (forallb_ext_eq _ _ tld alpha_cls_umem).
    by repeat split.
  - intros (loc & dom & tld & -> & Hloc & Hlocall & Hdom & Hdomall & Htld & Htldall).
    exists loc, (code "@" :: dom ++ code "." :: tld).
    rewrite (forallb_ext_eq _ _ loc local_cls_umem).
    repeat split; try done.
    apply umatch_lit. exists (dom ++ code "." :: tld). split; [done|].
    apply umatch_rep. exists dom, (code "." :: tld).
    rewrite (forallb_ext_eq _ _ dom domain_cls_umem).
    repeat split; try done.
    apply umatch_lit. exists tld. split; [done|].
    apply umatch_rep. exists tld, [].
    rewrite (forallb_ext_eq _ _ tld alpha_cls_umem), app_nil_r.
    by repeat split.
Qed.

(** ** The narrow matcher is the wide one on strings below 256 *)

Lemma code_inj c d : code c = code d → c = d.
Proof.
  unfold code. intros H. rewrite <- (ascii_N_embedding c), <- (ascii_N_embedding d).
  by rewrite H.
Qed.

Lemma ascii_eqb_code c d : Ascii.eqb c d = (code c =? code d)%N.
Proof.
  destruct (Ascii.eqb_spec c d) as [->|Hne].
  - by rewrite N.eqb_refl.
  - symmetry. apply N.eqb_neq. intros H. by apply Hne, code_inj.
Qed.

Lemma cset_mem_codes cls c : cset_mem cls c = cset_umem cls (code c).
Proof.
  unfold cset_mem, cset_umem. induction cls as [|i cls IH]; simpl; [done|].
  rewrite IH. f_equal. destruct i as [lo hi|d|]; simpl; [done| |done].
  apply ascii_eqb_code.
Qed.

Lemma rep_greedy_codes cls ucls k uk :
  (∀ c, cls c = ucls (code c)) →
  (∀ pos s, k pos s = uk pos (codes s)) →
  ∀ s lo hi pos,
    rep_greedy cls k lo hi pos s = urep_greedy ucls uk lo hi pos (codes s).
Proof.
  intros Hcls Hk. induction s as [|c s IH]; intros lo hi pos.
  - simpl. rewrite (Hk pos ""). by destruct hi as [[|h]|].
  - simpl. rewrite <- Hcls, (Hk pos (String c s)). simpl.
    destruct hi as [[|h]|]; [done| |]; destruct (cls c); try done;
      by rewrite IH.
Qed.

Lemma match_items_codes p : ∀ pos s,
  match_items p pos s = umatch_items p pos (codes s).
Proof.
  induction p as [|[| |cls lo hi] p IH]; intros pos s.
  - by destruct s.
  - simpl. by rewrite IH.
  - simpl. rewrite IH. f_equal.
    destruct s as [|c [|d s]]; [done| |].
    + change (Ascii.eqb c newline && true = (code c =? 10)%N).
      by rewrite andb_true_r, ascii_eqb_code.
    + change (Ascii.eqb c newline && false = false). apply andb_false_r.
  - simpl. apply rep_greedy_codes; [apply cset_mem_codes | apply IH].
Qed.

Lemma fullmatch_codes p s : fullmatch p s = ufullmatch p (codes s).
Proof. apply match_items_codes. Qed.

(** The validator of a [pyval] body is the wide one on that body. *)
Lemma validate_citizen_input_codes (m : gmap string pyval) :
  validate_citizen_input (VDict m) = validate_citizen_input_u (field_of <$> m).
Proof.
  unfold validate_citizen_input, validate_citizen_input_u, dict_get.
  cbn [mbind result_bind]. rewrite !lookup_fmap.
  assert (∀ k p,
    re_fullmatch p (default (VStr "") (m !! k))
    = re_fullmatch_u p (default (FStr []) (field_of <$> m !! k))) as Hf.
  { intros k p. destruct (m !! k) as [[| | |s| |]|]; simpl; try done;
      by rewrite fullmatch_codes. }
  rewrite !Hf. reflexivity.
Qed.

(** ** Validation: the result against the three shapes *)

Lemma utext_field_get data k u :
  utext_field data k u → default (FStr []) (data !! k) = FStr u.
Proof. by intros [-> | [-> ->]]. Qed.

Lemma validate_citizen_input_u_eq data phone public_id email :
  utext_field data "phone" phone →
  utext_field data "public_id" public_id →
  utext_field data "email" email →
  validate_citizen_input_u data =
  Ok (error_set (negb (ufullmatch phone_re phone))
        (negb (ufullmatch public_id_re public_id))
        (negb (ufullmatch email_re email))).
Proof.
  intros H1 H2 H3. unfold validate_citizen_input_u.
  rewrite (utext_field_get _ _ _ H1), (utext_field_get _ _ _ H2),
    (utext_field_get _ _ _ H3).
  reflexivity.
Qed.

Lemma ascii_digit_is_decimal c :
  is_ascii_digit_code c = true → is_unicode_decimal c = true.
Proof.
  unfold is_ascii_digit_code, is_unicode_decimal. intros H.
  change decimal_digit_ranges with ((48, 57)%N :: tail decimal_digit_ranges).
  simpl existsb. simpl fst. simpl snd. by rewrite H.
Qed.

(** C3. On a dict body whose phone, public_id and email are strings of any
    code points or are missing, [validate_citizen_input] returns an error
    dict that is empty exactly when the phone is 10 characters each a
    decimal digit of some script (what [\d] matches: 0-9, but also the
    Arabic-Indic digits and those of the other scripts), the public id is
    10 to 12 characters among 0-9 and A-Z, and the email has the
    local@domain.tld shape.  The three checks are independent: a field's
    key is in the dict exactly when that field fails its shape, and a
    missing field, read as the empty string, always fails.  Ten characters
    among 0-9 always pass the phone check.  On a [pyval] body the validator
    is this one applied to the code points of its strings. *)
Theorem validate_citizen_input_unicode_correct
    (data : gmap string field_value) (phone public_id email : list N) :
  utext_field data "phone" phone →
  utext_field data "public_id" public_id →
  utext_field data "email" email →
  (∃ errors : gmap string string,
     validate_citizen_input_u data = Ok errors
     ∧ (errors = ∅ ↔
        uphone_shape phone ∧ upublic_id_shape public_id ∧ uemail_shape email)
     ∧ ("phone" ∈ dom errors ↔ ¬ uphone_shape phone)
     ∧ ("public_id" ∈ dom errors ↔ ¬ upublic_id_shape public_id)
     ∧ ("email" ∈ dom errors ↔ ¬ uemail_shape email)
     ∧ (data !! "phone" = None → "phone" ∈ dom errors)
     ∧ (data !! "public_id" = None → "public_id" ∈ dom errors)
     ∧ (data !! "email" = None → "email" ∈ dom errors))
  ∧ (ascii_phone_shape phone → uphone_shape phone)
  ∧ (∀ m : gmap string pyval,
       validate_citizen_input (VDict m)
       = validate_citizen_input_u (field_of <$> m)).
Proof.
  intros Hp Hi He. split; [|split].
  - rewrite (validate_citizen_input_u_eq data phone public_id email Hp Hi He).
    eexists. split; [reflexivity|].
    pose proof (not_true_negb _ _ (uphone_re_spec phone)) as Np.
    pose proof (not_true_negb _ _ (upublic_id_re_spec public_id)) as Ni.
    pose proof (not_true_negb _ _ (uemail_re_spec email)) as Ne.
    destruct (error_set_keys (negb (ufullmatch phone_re phone))
                (negb (ufullmatch public_id_re public_id))
                (negb (ufullmatch email_re email))) as (Kp & Ki & Ke).
    assert (∀ k u, utext_field data k u → data !! k = None → u = []) as Hmiss.
    { intros k u [Hs | [_ ->]] Hn; [congruence | done]. }
    assert (¬ uphone_shape []) as Ep by (intros [H _]; discriminate H).
    assert (¬ upublic_id_shape []) as Ei
      by (intros [[H _] _]; simpl in H; lia).
    assert (¬ uemail_shape []) as Ee by (by rewrite <- uemail_re_spec).
    split; [|repeat split].
    + rewrite error_set_empty, !negb_false_iff.
      by rewrite uphone_re_spec, upublic_id_re_spec, uemail_re_spec.
    + intros H. apply Np, Kp, H.
    + intros H. apply Kp, Np, H.
    + intros H. apply Ni, Ki, H.
    + intros H. apply Ki, Ni, H.
    + intros H. apply Ne, Ke, H.
    + intros H. apply Ke, Ne, H.
    + intros Hn. apply Kp, Np. by rewrite (Hmiss _ _ Hp Hn).
    + intros Hn. apply Ki, Ni. by rewrite (Hmiss _ _ Hi Hn).
    + intros Hn. apply Ke, Ne. by rewrite (Hmiss _ _ He Hn).
  - intros [Hlen Hall]. split; [done|].
    clear Hlen Hp. induction phone as [|c phone IH]; simpl in *; [done|].
    apply andb_true_iff in Hall as [Hc Hall].
    by rewrite (ascii_digit_is_decimal c Hc), IH.
  - apply validate_citizen_input_codes.
Qed.

Lemma validate_citizen_input_unicode_correct_witness :
  let data : gmap string field_value :=
    {[ "phone" := FStr [2406; 2407; 2408; 2409; 2410; 2411; 2412; 2413;
                        2414; 2415]%N;
       "email" := FStr (codes "a@b.com") ]} in
  utext_field data "phone"
    [2406; 2407; 2408; 2409; 2410; 2411; 2412; 2413; 2414; 2415]%N
  ∧ utext_field data "public_id" []
  ∧ utext_field data "email" (codes "a@b.com")
  ∧ ∃ errors : gmap string string,
      validate_citizen_input_u data = Ok errors
      ∧ ("public_id" ∈ dom errors ↔ ¬ upublic_id_shape []).
Proof.
  intros data.
  assert (utext_field data "phone"
            [2406; 2407; 2408; 2409; 2410; 2411; 2412; 2413; 2414; 2415]%N)
    as Hp by (left; reflexivity).
  assert (utext_field data "public_id" []) as Hi
    by (right; split; reflexivity).
  assert (utext_field data "email" (codes "a@b.com")) as He
    by (left; reflexivity).
  split; [exact Hp|]. split; [exact Hi|]. split; [exact He|].
  destruct (validate_citizen_input_unicode_correct data _ _ _ Hp Hi He)
    as [(errors & Hval & _ & _ & Hid & _) _].
  exists errors. exact (conj Hval Hid).
Defined.

(** The claim read with the digits 0-9 fails at a phone made of the ten
    Arabic-Indic digits U+0660 to U+0669, next to a public id and an email
    that pass: the validator returns the empty dict, although the phone is
    not ten characters among 0-9. *)
Lemma arabic_indic_phone_passes_validation :
  let phone := [1632; 1633; 1634; 1635; 1636; 1637; 1638; 1639; 1640; 1641]%N in
  let data : gmap string field_value :=
    {[ "phone" := FStr phone;
       "public_id" := FStr (codes "AB12345678");
       "email" := FStr (codes "a@b.com") ]} in
  validate_citizen_input_u data = Ok ∅
  ∧ ¬ ascii_phone_shape phone
  ∧ ¬ (∀ errors, validate_citizen_input_u data = Ok errors →
         (errors = ∅ ↔
          ascii_phone_shape phone
          ∧ upublic_id_shape (codes "AB12345678")
          ∧ uemail_shape (codes "a@b.com"))).
Proof.
  intros phone data.
  assert (validate_citizen_input_u data = Ok ∅) as Hval by reflexivity.
  assert (¬ ascii_phone_shape phone) as Hno by (intros [_ H]; discriminate H).
  split; [exact Hval|]. split; [exact Hno|].
  intros Hclaim. apply Hno. by apply (proj1 (Hclaim ∅ Hval)).
Qed.

(** ** Routing: escalation and load balancing *)

(** C4. For every string category, every workload table and every score of
    8 or more, the router returns the resolved department and, as assignee,
    that department's name followed by "_Manager", and the workload table is
    returned as it was. *)
Theorem priority_override_routes_to_manager (refined_category : string)
    (priority_score : Z) (location_coords : pyval) (W : workloads) :
  8 ≤ priority_score →
  let target_department :=
    target_department_of (first_piece (split "_" refined_category)) in
  smart_route_and_assign (VStr refined_category) priority_score location_coords W
  = (Ok (target_department, target_department +:+ "_Manager"), W)
  ∧ endswith (target_department +:+ "_Manager") "_Manager" = true.
Proof.
  intros Hscore dept. split; [|apply endswith_app].
  rewrite smart_route_and_assign_str. cbv zeta. fold dept.
  destruct (officers_of dept W); [done|].
  by destruct (Z.leb_spec 8 priority_score); [|lia].
Qed.

Lemma priority_override_routes_to_manager_witness :
  8 ≤ 9
  ∧ smart_route_and_assign (VStr "Water Supply") 9 (VStr "N/A") OFFICER_WORKLOADS
    = (Ok ("Water_Supply_Dept", "Water_Supply_Dept_Manager"), OFFICER_WORKLOADS).
Proof.
  split; [lia|].
  apply (priority_override_routes_to_manager "Water Supply" 9 (VStr "N/A")
           OFFICER_WORKLOADS).
  lia.
Defined.

(** C5. For a string category, a score below 8 and a department with at
    least one matching officer, the router picks the first, in the table's
    order, of the matching officers of least count: every matching officer
    before it has a strictly larger count and every one after it a count at
    least as large, so an officer whose count is strictly below that of
    every other matching officer is the one picked.  The table returned
    has that officer's count raised by
    one, every other count as before, and the same officers in the same
    order.  In particular, with exactly two matching officers at counts 5
    and 12, in either order, the officer at 5 is assigned and moves to 6
    while the other stays at 12. *)
Theorem load_balancing_least_loaded (refined_category : string)
    (priority_score : Z) (location_coords : pyval) (W : workloads) :
  NoDup W.*1 →
  priority_score < 8 →
  let target_department :=
    target_department_of (first_piece (split "_" refined_category)) in
  let routed :=
    smart_route_and_assign (VStr refined_category) priority_score
      location_coords W in
  (officers_of target_department W ≠ [] →
   ∃ officer n before after,
     officers_of target_department W = before ++ (officer, n) :: after
     ∧ (∀ kv, kv ∈ before → n < kv.2)
     ∧ (∀ kv, kv ∈ after → n ≤ kv.2)
     ∧ (∀ k v, (k, v) ∈ officers_of target_department W →
          (∀ k' v', (k', v') ∈ officers_of target_department W → k' ≠ k → v < v') →
          officer = k)
     ∧ routed.1 = Ok (target_department, officer)
     ∧ items_get officer W = Some n
     ∧ items_get officer routed.2 = Some (n + 1)
     ∧ (∀ k, k ≠ officer → items_get k routed.2 = items_get k W)
     ∧ routed.2.*1 = W.*1)
  ∧ (∀ low high : string,
       officers_of target_department W = [(low, 5); (high, 12)]
       ∨ officers_of target_department W = [(high, 12); (low, 5)] →
       routed.1 = Ok (target_department, low)
       ∧ items_get low routed.2 = Some 6
       ∧ items_get high routed.2 = Some 12
       ∧ (∀ k, k ≠ low → items_get k routed.2 = items_get k W)).
Proof.
  intros Hnd Hscore dept routed.
  assert (officers_of dept W ≠ [] →
    ∃ officer n before after,
      officers_of dept W = before ++ (officer, n) :: after
      ∧ (∀ kv, kv ∈ before → n < kv.2)
      ∧ (∀ kv, kv ∈ after → n ≤ kv.2)
      ∧ (∀ k v, (k, v) ∈ officers_of dept W →
           (∀ k' v', (k', v') ∈ officers_of dept W → k' ≠ k → v < v') →
           officer = k)
      ∧ routed.1 = Ok (dept, officer)
      ∧ items_get officer W = Some n
      ∧ items_get officer routed.2 = Some (n + 1)
      ∧ (∀ k, k ≠ officer → items_get k routed.2 = items_get k W)
      ∧ routed.2.*1 = W.*1) as Hgen.
  { intros Hne.
    destruct (load_balancing_step refined_category priority_score
                location_coords W Hnd Hscore Hne)
      as (officer & n & before & after & E & Hb & Ha & Hget & Hr).
    exists officer, n, before, after. subst routed. fold dept in Hr. rewrite Hr.
    fold dept in E. simpl. repeat split; auto.
    - intros k v Hkv Hlow. destruct (decide (officer = k)) as [|Hko]; [done|].
      assert (v < n) as Hvn.
      { apply (Hlow officer n); [|done]. rewrite E.
        apply elem_of_app. right. left. }
      rewrite E in Hkv.
      apply elem_of_app in Hkv as [Hkv | [[= -> ->] | Hkv]%elem_of_cons].
      + apply Hb in Hkv. simpl in Hkv. lia.
      + done.
      + apply Ha in Hkv. simpl in Hkv. lia.
    - apply items_get_set_eq.
    - intros k Hk. by apply items_get_set_ne.
    - apply items_set_keys. by eexists. }
  split; [exact Hgen|].
  intros low high Hoff.
  assert (officers_of dept W ≠ []) as Hne by (destruct Hoff as [-> | ->]; done).
  destruct (Hgen Hne)
    as (officer & n & before & after & E & Hb & Ha & _ & Hr & Hget & Hnew
        & Hoth & _).
  assert ((low, 5) ∈ W ∧ (high, 12) ∈ W) as [Hlow Hhigh].
  { split; eapply officers_of_subseteq; destruct Hoff as [-> | ->];
      repeat first [left | right]. }
  assert (low ≠ high) as Hdiff.
  { intros ->. pose proof (items_get_elem W high 5 Hnd Hlow) as H5.
    pose proof (items_get_elem W high 12 Hnd Hhigh) as H12. congruence. }
  assert (officer = low ∧ n = 5) as [-> ->].
  { destruct Hoff as [Hoff | Hoff]; rewrite Hoff in E;
      destruct before as [|x [|y before]]; simplify_eq/=; try done;
      try (by destruct before).
    - pose proof (Hb (low, 5) ltac:(left)) as Hx. simpl in Hx. lia.
    - pose proof (Ha (low, 5) ltac:(left)) as Hx. simpl in Hx. lia. }
  repeat split; auto.
  rewrite Hoth by done. by apply items_get_elem.
Qed.

Lemma load_balancing_least_loaded_witness :
  let routed :=
    smart_route_and_assign (VStr "Water Supply") 5 (VStr "N/A")
      OFFICER_WORKLOADS in
  NoDup OFFICER_WORKLOADS.*1
  ∧ 5 < 8
  ∧ routed.1 = Ok ("Water_Supply_Dept", "Officer_B_Water")
  ∧ items_get "Officer_B_Water" routed.2 = Some 6
  ∧ items_get "Officer_A_Water" routed.2 = Some 12.
Proof.
  intros routed.
  assert (NoDup OFFICER_WORKLOADS.*1) as Hnd
    by (apply (bool_decide_unpack _); vm_compute; exact I).
  assert (5 < 8) as Hlt by lia.
  destruct (load_balancing_least_loaded "Water Supply" 5 (VStr "N/A")
              OFFICER_WORKLOADS Hnd Hlt) as [_ Hpair].
  destruct (Hpair "Officer_B_Water" "Officer_A_Water" (or_intror eq_refl))
    as (Hr & H6 & H12 & _).
  exact (conj Hnd (conj Hlt (conj Hr (conj H6 H12)))).
Defined.

(** ** Classification: category and score *)

(** C6. For every description and declared category, both strings, the
    classifier returns; the refined category is "Pothole_Major" when the
    lower-cased description contains "pothole" or "cracked road", whatever
    the declared category; otherwise it is "Water_Leakage_Critical" when it
    contains "leakage" or "no water"; otherwise it is the declared category
    unchanged. *)
Theorem refined_category_rule (jitter : Z) (description citizen_category : string) :
  ∃ (refined_category : string) (priority_score : Z),
    ai_categorize_and_score jitter (VStr description) (VStr citizen_category)
    = Ok (VStr refined_category, priority_score)
    ∧ let keywords := lower description in
      let road := occurs_in "pothole" keywords ∨ occurs_in "cracked road" keywords in
      let water := occurs_in "leakage" keywords ∨ occurs_in "no water" keywords in
      (road → refined_category = "Pothole_Major")
      ∧ (¬ road → water → refined_category = "Water_Leakage_Critical")
      ∧ (¬ road → ¬ water → refined_category = citizen_category).
Proof.
  rewrite ai_categorize_and_score_str. cbv zeta.
  eexists _, _. split; [reflexivity|].
  assert (contains "pothole" (lower description)
          || contains "cracked road" (lower description) = true
          ↔ occurs_in "pothole" (lower description)
            ∨ occurs_in "cracked road" (lower description)) as Hroad
    by (by rewrite orb_true_iff, !contains_spec).
  assert (contains "leakage" (lower description)
          || contains "no water" (lower description) = true
          ↔ occurs_in "leakage" (lower description)
            ∨ occurs_in "no water" (lower description)) as Hwater
    by (by rewrite orb_true_iff, !contains_spec).
  destruct (contains "pothole" (lower description)
            || contains "cracked road" (lower description));
    destruct (contains "leakage" (lower description)
              || contains "no water" (lower description));
    repeat split; intros; try reflexivity; exfalso; intuition congruence.
Qed.

(** C7. For every jitter value among 0, 1 and 2: on string arguments the
    classifier returns a score between 3 and 10, and on any arguments a
    score it returns lies between 3 and 10. *)
Theorem priority_score_bounds (jitter : Z) :
  0 ≤ jitter ≤ 2 →
  (∀ description citizen_category : string,
     ∃ refined_category priority_score,
       ai_categorize_and_score jitter (VStr description) (VStr citizen_category)
       = Ok (refined_category, priority_score)
       ∧ 3 ≤ priority_score ≤ 10)
  ∧ (∀ (description citizen_category refined_category : pyval) priority_score,
       ai_categorize_and_score jitter description citizen_category
       = Ok (refined_category, priority_score) →
       3 ≤ priority_score ≤ 10).
Proof.
  intros Hj.
  assert (∀ (description citizen_category refined_category : pyval) priority_score,
            ai_categorize_and_score jitter description citizen_category
            = Ok (refined_category, priority_score) →
            3 ≤ priority_score ≤ 10) as Hany.
  { intros d c r score H.
    apply ai_categorize_and_score_form in H as (found & bump & ->).
    destruct bump; lia. }
  split; [|exact Hany].
  intros d c. rewrite ai_categorize_and_score_str. cbv zeta.
  eexists _, _. split; [reflexivity|].
  eapply Hany. apply ai_categorize_and_score_str.
Qed.

Lemma priority_score_bounds_witness :
  0 ≤ 2 ≤ 2
  ∧ ∃ refined_category priority_score,
      ai_categorize_and_score 2 (VStr "urgent: fatal and dangerous flooding")
        (VStr "Public Safety")
      = Ok (refined_category, priority_score)
      ∧ 3 ≤ priority_score ≤ 10.
Proof.
  split; [lia|].
  apply (priority_score_bounds 2); lia.
Defined.

(** ** The submission handler *)

(** C8. When validation returns a non-empty error dict, the handler answers
    with the rejection (status 400) that carries exactly that dict, whatever
    the clock and the jitter, and the workload table is returned as it was:
    neither the classifier nor the router has run. *)
Theorem invalid_submission_rejected (complaint_data : pyval)
    (validation_errors : gmap string string) :
  validate_citizen_input complaint_data = Ok validation_errors →
  validation_errors ≠ ∅ →
  ∀ (now_ms jitter : Z) (W : workloads),
    submit_complaint now_ms jitter complaint_data W
    = (SubmitRejected "One or more input fields failed server validation."
         validation_errors, W)
    ∧ submit_success (submit_complaint now_ms jitter complaint_data W).1 = false
    ∧ submit_status (submit_complaint now_ms jitter complaint_data W).1 = 400.
Proof.
  intros Hval Hne now_ms jitter W. unfold submit_complaint. rewrite Hval.
  by rewrite bool_decide_eq_false_2.
Qed.

Lemma invalid_submission_rejected_witness :
  let errors : gmap string string :=
    {[ "public_id" := "Public ID must be 10 to 12 alphanumeric characters." ]} in
  let body : pyval :=
    VDict {[ "phone" := VStr "9876543210"; "email" := VStr "a@b.com";
             "description" := VStr "no water since monday";
             "category" := VStr "Water Supply" ]} in
  validate_citizen_input body = Ok errors
  ∧ errors ≠ ∅
  ∧ submit_complaint 1730000123456 1 body OFFICER_WORKLOADS
    = (SubmitRejected "One or more input fields failed server validation."
         errors, OFFICER_WORKLOADS).
Proof.
  intros errors body.
  assert (validate_citizen_input body = Ok errors) as Hval by reflexivity.
  assert (errors ≠ ∅) as Hne by apply insert_non_empty.
  split; [exact Hval|]. split; [exact Hne|].
  apply (invalid_submission_rejected body errors Hval Hne).
Defined.

(** C9. For the submission of the end-to-end scenario, any clock value, any
    workload table and any jitter among 0, 1 and 2: validation returns the
    empty dict; the classifier returns "Pothole_Major" with score 7 plus the
    jitter, hence 7, 8 or 9; the base key is "Pothole", which is not a key
    of the department mapping, so the department is the fallback
    "General_Admin_Dept"; and the handler answers success with the tracking
    id "GRV-" followed by the decimal digits of the clock in milliseconds
    modulo one million, status "Under Review" and that score.  On a table
    with the officers of the initial one the assignee is
    "General_Admin_Dept_Manager" and the table is unchanged. *)
Theorem scenario_end_to_end (now_ms jitter : Z) (W : workloads) :
  0 ≤ jitter ≤ 2 →
  validate_citizen_input scenario = Ok ∅
  ∧ ai_categorize_and_score jitter
      (VStr "Major pothole causing dangerous flooding") (VStr "Road Maintenance")
    = Ok (VStr "Pothole_Major", 7 + jitter)
  ∧ (7 + jitter = 7 ∨ 7 + jitter = 8 ∨ 7 + jitter = 9)
  ∧ first_piece (split "_" "Pothole_Major") = "Pothole"
  ∧ DEPARTMENT_MAPPING !! "Pothole" = None
  ∧ target_department_of "Pothole" = "General_Admin_Dept"
  ∧ generate_unique_id now_ms = "GRV-" +:+ pretty (now_ms `mod` 1000000)
  ∧ 0 ≤ now_ms `mod` 1000000 < 1000000
  ∧ (∃ assigned_to W',
       submit_complaint now_ms jitter scenario W
       = (SubmitAccepted (generate_unique_id now_ms) "Under Review"
            assigned_to (7 + jitter), W'))
  ∧ (W.*1 = OFFICER_WORKLOADS.*1 →
     submit_complaint now_ms jitter scenario W
     = (SubmitAccepted (generate_unique_id now_ms) "Under Review"
          "General_Admin_Dept_Manager" (7 + jitter), W)).
Proof.
  intros Hj.
  assert (validate_citizen_input scenario = Ok ∅) as Hval by reflexivity.
  assert (ai_categorize_and_score jitter
            (VStr "Major pothole causing dangerous flooding")
            (VStr "Road Maintenance")
          = Ok (VStr "Pothole_Major", 7 + jitter)) as Hai.
  { assert (jitter = 0 ∨ jitter = 1 ∨ jitter = 2) as [-> | [-> | ->]] by lia;
      reflexivity. }
  assert (submit_complaint now_ms jitter scenario W
          = match smart_route_and_assign (VStr "Pothole_Major") (7 + jitter)
                    (VStr "N/A") W with
            | (Raise e, W') => (SubmitFailed e, W')
            | (Ok (_, assigned_officer), W') =>
                (SubmitAccepted (generate_unique_id now_ms) "Under Review"
                   assigned_officer (7 + jitter), W')
            end) as Hsub.
  { unfold submit_complaint. rewrite Hval.
    rewrite bool_decide_eq_true_2 by done. cbn [negb].
    unfold process_complaint.
    change (dict_get scenario "description" (VStr ""))
      with (Ok (VStr "Major pothole causing dangerous flooding")).
    change (dict_get scenario "category" (VStr "Other"))
      with (Ok (VStr "Road Maintenance")).
    change (dict_get scenario "location_coords" (VStr "N/A"))
      with (Ok (VStr "N/A")).
    cbn [mbind result_bind]. rewrite Hai.
    by destruct (smart_route_and_assign _ _ _ W) as [[[d a]|e] W']. }
  repeat split; try done; try lia.
  - by apply Z.mod_pos_bound.
  - by apply Z.mod_pos_bound.
  - rewrite Hsub, smart_route_and_assign_str. cbv zeta.
    destruct (officers_of _ W) as [|first others] eqn:E; [by eexists _, _|].
    destruct (8 <=? 7 + jitter); [by eexists _, _|].
    destruct (min_item_split first others) as (before & after & E' & _).
    assert (min_item first others ∈ W) as Hin.
    { eapply officers_of_subseteq. rewrite E, E'.
      apply elem_of_app. right. left. }
    destruct (min_item first others) as [k n0].
    destruct (items_get_is_Some _ _ _ Hin) as [n Hn]. simpl. rewrite Hn.
    by eexists _, _.
  - intros HW. rewrite Hsub, smart_route_and_assign_str. cbv zeta.
    change (target_department_of (first_piece (split "_" "Pothole_Major")))
      with "General_Admin_Dept".
    by rewrite (officers_of_same_keys "General_Admin_Dept" W OFFICER_WORKLOADS HW).
Qed.

Lemma scenario_end_to_end_witness :
  0 ≤ 1 ≤ 2
  ∧ submit_complaint 1730000123456 1 scenario OFFICER_WORKLOADS
    = (SubmitAccepted "GRV-123456" "Under Review" "General_Admin_Dept_Manager" 8,
       OFFICER_WORKLOADS).
Proof.
  assert (0 ≤ 1 ≤ 2) as Hj by lia.
  split; [exact Hj|].
  apply (scenario_end_to_end 1730000123456 1 OFFICER_WORKLOADS Hj).
  reflexivity.
Defined.

(** ** The login handler *)

Lemma OFFICIALS_DB_lookup user official_record :
  OFFICIALS_DB !! user = Some official_record →
  (user = "john.doe@gov.in" ∧ official_record =
     {| password_hash := "hashed_password_doe"; govt_id := "GOV1001A";
        department := "Water_Supply_Dept"; name := "John Doe" |})
  ∨ (user = "sara.smith@gov.in" ∧ official_record =
     {| password_hash := "hashed_password_smith"; govt_id := "GOV2002B";
        department := "Public_Works_Dept"; name := "Sara Smith" |}).
Proof.
  unfold OFFICIALS_DB. intros H%elem_of_list_to_map_2.
  apply elem_of_cons in H as [[= -> ->] | H]; [by left|].
  apply elem_of_cons in H as [[= -> ->] | H]; [by right|].
  by apply elem_of_nil in H.
Qed.

Section login_facts.
Variable py_hash : string → Z.

(** The handler on three string fields, as a decision table: the
    password takes part only through being empty or not. *)
Lemma official_login_str (username password gov_id : string) :
  official_login py_hash
    (login_request (VStr username) (VStr password) (VStr gov_id))
  = Ok (if String.eqb username "" || String.eqb password ""
           || String.eqb gov_id ""
        then LoginMissingFields
        else match OFFICIALS_DB !! username with
             | None => LoginInvalidCredentials
             | Some official_record =>
                 if String.eqb (stored_govt_id official_record) gov_id
                 then LoginOk
                        ("JWT." +:+ department official_record +:+ "."
                         +:+ pretty (py_hash username))
                        (department official_record) (name official_record)
                 else LoginGovtIdMismatch
             end).
Proof.
  unfold official_login, login_request.
  change (dict_get (VDict _) "username" VNone) with (Ok (VStr username)).
  change (dict_get (VDict _) "password" VNone) with (Ok (VStr password)).
  change (dict_get (VDict _) "govt_id" VNone) with (Ok (VStr gov_id)).
  cbn [mbind result_bind truthy]. rewrite !negb_involutive.
  destruct (String.eqb username "" || String.eqb password ""
            || String.eqb gov_id ""); [done|].
  destruct (OFFICIALS_DB !! username) as [r|] eqn:E; [|done].
  apply OFFICIALS_DB_lookup in E as [[-> ->] | [-> ->]];
    cbn [negb str_ne stored_govt_id govt_id];
    by destruct (String.eqb _ gov_id).
Qed.

(** A correct triple is accepted, with the record's department and name. *)
Lemma official_login_correct :
  official_login py_hash
    (login_request (VStr "john.doe@gov.in") (VStr "hashed_password_doe")
       (VStr "GOV1001A"))
  = Ok (LoginOk ("JWT.Water_Supply_Dept." +:+ pretty (py_hash "john.doe@gov.in"))
          "Water_Supply_Dept" "John Doe")
  ∧ official_login py_hash
      (login_request (VStr "sara.smith@gov.in") (VStr "hashed_password_smith")
         (VStr "GOV2002B"))
    = Ok (LoginOk ("JWT.Public_Works_Dept." +:+ pretty (py_hash "sara.smith@gov.in"))
            "Public_Works_Dept" "Sara Smith").
Proof. by rewrite !official_login_str. Qed.

(** An absent field is reported as missing. *)
Lemma official_login_missing (m : gmap string pyval) :
  m !! "username" = None ∨ m !! "password" = None ∨ m !! "govt_id" = None →
  official_login py_hash (VDict m) = Ok LoginMissingFields.
Proof.
  unfold official_login, dict_get. cbn [mbind result_bind].
  intros [-> | [-> | ->]]; cbn [default truthy negb orb].
  - done.
  - by rewrite orb_true_r.
  - by rewrite orb_true_r.
Qed.

(** A user name that is not in the directory is an invalid credential. *)
Lemma official_login_unknown_user (username password gov_id : string) :
  username ≠ "" → password ≠ "" → gov_id ≠ "" →
  OFFICIALS_DB !! username = None →
  official_login py_hash
    (login_request (VStr username) (VStr password) (VStr gov_id))
  = Ok LoginInvalidCredentials.
Proof.
  intros Hu Hp Hg Hdb. rewrite official_login_str, Hdb.
  apply String.eqb_neq in Hu, Hp, Hg. by rewrite Hu, Hp, Hg.
Qed.

(** A wrong government id, for a user of the directory, is a mismatch. *)
Lemma official_login_wrong_govt_id (username password gov_id : string)
    official_record :
  password ≠ "" → gov_id ≠ "" →
  OFFICIALS_DB !! username = Some official_record →
  gov_id ≠ stored_govt_id official_record →
  official_login py_hash
    (login_request (VStr username) (VStr password) (VStr gov_id))
  = Ok LoginGovtIdMismatch.
Proof.
  intros Hp Hg Hdb Hne. rewrite official_login_str, Hdb.
  assert (username ≠ "") as Hu by (by intros ->).
  apply String.eqb_neq in Hu, Hp, Hg. rewrite Hu, Hp, Hg. simpl.
  destruct (String.eqb_spec (stored_govt_id official_record) gov_id);
    congruence.
Qed.
End login_facts.

(** C1. The login handler at the failing input: with the user name and the
    government id of a record and a password that is not the stored
    credential, the answer is the success, with department and name, that
    the stored credential itself obtains, not an invalid-credentials
    failure. *)
Theorem official_login_accepts_wrong_password (py_hash : string → Z) :
  official_login py_hash
    (login_request (VStr "john.doe@gov.in") (VStr "wrong") (VStr "GOV1001A"))
  = Ok (LoginOk ("JWT.Water_Supply_Dept." +:+ pretty (py_hash "john.doe@gov.in"))
          "Water_Supply_Dept" "John Doe")
  ∧ official_login py_hash
      (login_request (VStr "john.doe@gov.in") (VStr "wrong") (VStr "GOV1001A"))
    = official_login py_hash
        (login_request (VStr "john.doe@gov.in") (VStr "hashed_password_doe")
           (VStr "GOV1001A"))
  ∧ "wrong" ≠ password_hash
      {| password_hash := "hashed_password_doe"; govt_id := "GOV1001A";
         department := "Water_Supply_Dept"; name := "John Doe" |}.
Proof. by rewrite !official_login_str. Qed.

(** C2. Two login bodies that differ only in the password field, both
    passwords being non-empty strings, get the same answer from the
    handler: the same response, or the same exception. *)
Theorem official_login_password_irrelevant (py_hash : string → Z)
    (m : gmap string pyval) (password1 password2 : string) :
  password1 ≠ "" →
  password2 ≠ "" →
  official_login py_hash (VDict (<["password" := VStr password1]> m))
  = official_login py_hash (VDict (<["password" := VStr password2]> m)).
Proof.
  intros H1 H2. unfold official_login, dict_get.
  rewrite !lookup_insert_eq, !lookup_insert_ne by done.
  cbn [mbind result_bind from_option id truthy].
  apply String.eqb_neq in H1, H2. by rewrite H1, H2.
Qed.

Lemma official_login_password_irrelevant_witness :
  let m : gmap string pyval :=
    {[ "username" := VStr "sara.smith@gov.in"; "govt_id" := VStr "GOV2002B" ]} in
  "hashed_password_smith" ≠ ""
  ∧ "letmein" ≠ ""
  ∧ official_login (λ _, 0)
      (VDict (<["password" := VStr "hashed_password_smith"]> m))
    = official_login (λ _, 0) (VDict (<["password" := VStr "letmein"]> m)).
Proof.
  intros m.
  assert ("hashed_password_smith" ≠ "") as H1 by discriminate.
  assert ("letmein" ≠ "") as H2 by discriminate.
  split; [exact H1|]. split; [exact H2|].
  exact (official_login_password_irrelevant (λ _, 0) m
           "hashed_password_smith" "letmein" H1 H2).
Defined.

(** * Further properties of the handlers and their parts *)

(** ** The router, case by case *)

(** On a string category the router has two outcomes: the manager, with
    the table as it was, or an officer of the department, whose count goes
    up by one.  The [KeyError] branch is never taken. *)
Lemma smart_route_and_assign_cases (c : string) score loc (W : workloads) :
  let dept := target_department_of (first_piece (split "_" c)) in
  (smart_route_and_assign (VStr c) score loc W
   = (Ok (dept, dept +:+ "_Manager"), W)
   ∧ (officers_of dept W = [] ∨ 8 ≤ score))
  ∨ (∃ officer n0 n,
       (officer, n0) ∈ officers_of dept W
       ∧ score < 8
       ∧ items_get officer W = Some n
       ∧ smart_route_and_assign (VStr c) score loc W
         = (Ok (dept, officer), items_set officer (n + 1) W)).
Proof.
  intros dept. rewrite smart_route_and_assign_str. cbv zeta. fold dept.
  destruct (officers_of dept W) as [|first others] eqn:E; [left; auto|].
  destruct (Z.leb_spec 8 score) as [Hge|Hlt]; [left; auto|]. right.
  destruct (min_item_split first others) as (before & after & E' & _).
  assert (min_item first others ∈ first :: others) as Hin'.
  { rewrite E'. apply elem_of_app. right. left. }
  assert (min_item first others ∈ W) as Hin.
  { eapply officers_of_subseteq. by rewrite E. }
  destruct (min_item first others) as [officer n0]. simpl.
  destruct (items_get_is_Some _ _ _ Hin) as [n Hn]. rewrite Hn.
  by exists officer, n0, n.
Qed.

(** On a value that is not a string the router raises before it reads the
    table. *)
Lemma smart_route_and_assign_not_str v score loc (W : workloads) :
  not_str v = true →
  smart_route_and_assign v score loc W = (Raise AttributeError, W).
Proof. by destruct v. Qed.

Lemma items_get_set (W : workloads) k k' v :
  items_get k' (items_set k v W)
  = if decide (k = k') then Some v else items_get k' W.
Proof.
  destruct (decide (k = k')) as [->|Hne];
    [apply items_get_set_eq | by apply items_get_set_ne].
Qed.

(** What one call of the router does to the table, whatever its
    arguments. *)
Lemma smart_route_and_assign_effect v score loc (W : workloads) :
  (smart_route_and_assign v score loc W).2 = W
  ∨ ∃ dept officer n,
      items_get officer W = Some n
      ∧ smart_route_and_assign v score loc W
        = (Ok (dept, officer), items_set officer (n + 1) W).
Proof.
  destruct (not_str v) eqn:Hv.
  - left. by rewrite smart_route_and_assign_not_str.
  - destruct v; try done.
    destruct (smart_route_and_assign_cases s score loc W)
      as [[-> _] | (officer & n0 & n & _ & _ & Hn & ->)]; [by left|].
    right. by eexists _, officer, n.
Qed.

(** ** Splitting at the first separator *)

Lemma split_cons sep c s :
  split sep (String c s)
  = if Ascii.eqb c sep
    then (EmptyString, first_piece (split sep s) :: (split sep s).2)
    else (String c (first_piece (split sep s)), (split sep s).2).
Proof. simpl. by destruct (split sep s). Qed.

Lemma first_piece_split_idem sep s :
  first_piece (split sep (first_piece (split sep s)))
  = first_piece (split sep s).
Proof.
  induction s as [|c s IH]; [done|]. rewrite split_cons.
  destruct (Ascii.eqb c sep) eqn:Hc; [done|].
  unfold first_piece at 2. simpl fst. rewrite split_cons, Hc.
  unfold first_piece at 1. simpl fst. by rewrite IH.
Qed.

Lemma first_piece_split_spec sep s :
  str_count sep (first_piece (split sep s)) = 0%nat
  ∧ (s = first_piece (split sep s)
     ∨ ∃ rest, s = first_piece (split sep s) +:+ String sep rest).
Proof.
  induction s as [|c s [IH1 IH2]]; [by split; [|left]|].
  rewrite split_cons. set (h := first_piece (split sep s)) in *.
  destruct (Ascii.eqb_spec c sep) as [->|Hne]; unfold first_piece; simpl fst.
  - split; [done|]. right. by exists s.
  - split.
    + simpl. apply Ascii.eqb_neq in Hne. by rewrite Hne, IH1.
    + destruct IH2 as [IH2 | [rest IH2]].
      * left. by rewrite <- IH2.
      * right. exists rest. simpl. by rewrite <- IH2.
Qed.

(** ** Routing: outcomes and invariants *)

(** X1. The base key the router looks up is the text before the first
    underscore of the category: it holds no underscore, and the category is
    either that text alone or that text, an underscore and a remainder.
    Splitting it a second time, as the officer filter does with the
    department, changes nothing. *)
Theorem base_category_before_first_underscore (refined_category : string) :
  let base_category := first_piece (split "_" refined_category) in
  str_count "_" base_category = 0%nat
  ∧ (refined_category = base_category
     ∨ ∃ rest, refined_category = base_category +:+ "_" +:+ rest)
  ∧ first_piece (split "_" base_category) = base_category.
Proof.
  intros base. destruct (first_piece_split_spec "_" refined_category) as [H0 H1].
  split; [exact H0|]. split; [exact H1|]. apply first_piece_split_idem.
Qed.

(** X2. On a string category the router never raises.  It returns the
    resolved department with either that department's manager and the
    table untouched, or, only for a score below 8, an officer of the table
    whose name ends with the department's first token, that officer's
    count being the only change. *)
Theorem router_returns_manager_or_officer (refined_category : string)
    (priority_score : Z) (location_coords : pyval) (W : workloads) :
  let target_department :=
    target_department_of (first_piece (split "_" refined_category)) in
  ∃ assignee W',
    smart_route_and_assign (VStr refined_category) priority_score
      location_coords W
    = (Ok (target_department, assignee), W')
    ∧ ((assignee = target_department +:+ "_Manager" ∧ W' = W)
       ∨ (priority_score < 8
          ∧ assignee ∈ W.*1
          ∧ endswith assignee (first_piece (split "_" target_department)) = true
          ∧ ∃ n, items_get assignee W = Some n
                 ∧ W' = items_set assignee (n + 1) W)).
Proof.
  intros dept.
  destruct (smart_route_and_assign_cases refined_category priority_score
              location_coords W)
    as [[Hr _] | (officer & n0 & n & Hin & Hlt & Hn & Hr)]; fold dept in Hr |- *.
  - exists (dept +:+ "_Manager"), W. split; [done | by left].
  - exists officer, (items_set officer (n + 1) W). split; [done|]. right.
    fold dept in Hin. unfold officers_of in Hin.
    apply list_elem_of_filter in Hin as [Hsuf Hin]. cbv beta zeta in Hsuf.
    change ((officer, n0).1) with officer in Hsuf.
    rewrite first_piece_split_idem in Hsuf.
    repeat split; try done; [|by exists n].
    apply list_elem_of_fmap. by exists (officer, n0).
Qed.

(** X3. Whatever its arguments, one call of the router keeps the officers
    of the table and their order, lowers no count, raises at most one count
    and that one by exactly one, so that the total of open cases goes up by
    zero or one. *)
Theorem router_table_invariants (refined_category : pyval)
    (priority_score : Z) (location_coords : pyval) (W : workloads) :
  let W' :=
    (smart_route_and_assign refined_category priority_score
       location_coords W).2 in
  W'.*1 = W.*1
  ∧ (total_open_cases W' = total_open_cases W
     ∨ total_open_cases W' = total_open_cases W + 1)
  ∧ (∀ k n, items_get k W = Some n →
       items_get k W' = Some n ∨ items_get k W' = Some (n + 1))
  ∧ (∀ k k', items_get k W' ≠ items_get k W →
       items_get k' W' ≠ items_get k' W → k = k').
Proof.
  intros W'. split; [apply smart_route_and_assign_keys|].
  destruct (smart_route_and_assign_effect refined_category priority_score
              location_coords W) as [HW | (dept & officer & n & Hn & Hr)];
    subst W'.
  - rewrite HW. repeat split; auto. intros k k' Hk. done.
  - rewrite Hr. simpl. split; [|split].
    + right. rewrite (total_items_set W officer n _ Hn). lia.
    + intros k m Hk. rewrite items_get_set.
      destruct (decide (officer = k)) as [->|_]; [|by left].
      right. congruence.
    + intros k k'. rewrite !items_get_set.
      destruct (decide (officer = k)) as [->|_]; [|done].
      destruct (decide (k = k')) as [->|_]; done.
Qed.

(** ** Routing with the officers of the source *)

(** Of the departments the mapping can yield, only the one of the keys
    "Water Supply" and "Drainage" has officers in the table of the source. *)
Lemma department_officers_cases (base_category : string) :
  ((base_category = "Water Supply" ∨ base_category = "Drainage")
   ∧ target_department_of base_category = "Water_Supply_Dept")
  ∨ (base_category ≠ "Water Supply" ∧ base_category ≠ "Drainage"
     ∧ officers_of (target_department_of base_category) OFFICER_WORKLOADS = []).
Proof.
  unfold target_department_of.
  destruct (DEPARTMENT_MAPPING !! base_category) as [d|] eqn:E.
  - unfold DEPARTMENT_MAPPING in E. apply elem_of_list_to_map_2 in E.
    repeat (apply elem_of_cons in E as [[= -> ->] | E];
            [first [ by (left; split; [auto|]) | by (right; repeat split) ]|]).
    by apply elem_of_nil in E.
  - right. repeat split; try done; intros ->; discriminate E.
Qed.

Lemma water_officers_keys (W : workloads) :
  W.*1 = OFFICER_WORKLOADS.*1 →
  (officers_of "Water_Supply_Dept" W).*1 = ["Officer_A_Water"; "Officer_B_Water"].
Proof. intros HW. by rewrite (officers_of_keys _ _ _ HW). Qed.

(** X4. With the officers of the source in the table, the router assigns
    an officer only when the score is below 8 and the base key is
    "Water Supply" or "Drainage", and then it is one of the two Water
    officers; in every other case the assignee is the department's manager
    and the table is untouched.  The two Roads officers are never assigned
    and their counts never change: no department name starts with "Roads". *)
Theorem source_officers_assignment (refined_category : string)
    (priority_score : Z) (location_coords : pyval) (W : workloads) :
  W.*1 = OFFICER_WORKLOADS.*1 →
  let base_category := first_piece (split "_" refined_category) in
  let target_department := target_department_of base_category in
  let balanced :=
    priority_score < 8
    ∧ (base_category = "Water Supply" ∨ base_category = "Drainage") in
  ∃ assignee W',
    smart_route_and_assign (VStr refined_category) priority_score
      location_coords W
    = (Ok (target_department, assignee), W')
    ∧ ((balanced
        ∧ target_department = "Water_Supply_Dept"
        ∧ (assignee = "Officer_A_Water" ∨ assignee = "Officer_B_Water")
        ∧ ∃ n, items_get assignee W = Some n
               ∧ W' = items_set assignee (n + 1) W)
       ∨ (¬ balanced
          ∧ assignee = target_department +:+ "_Manager" ∧ W' = W))
    ∧ assignee ≠ "Officer_C_Roads" ∧ assignee ≠ "Officer_D_Roads"
    ∧ items_get "Officer_C_Roads" W' = items_get "Officer_C_Roads" W
    ∧ items_get "Officer_D_Roads" W' = items_get "Officer_D_Roads" W.
Proof.
  intros HW base dept balanced.
  assert (dept +:+ "_Manager" ≠ "Officer_C_Roads"
          ∧ dept +:+ "_Manager" ≠ "Officer_D_Roads") as [HmC HmD].
  { split; intros Heq;
      pose proof (endswith_app dept "_Manager") as He; rewrite Heq in He;
      discriminate He. }
  destruct (smart_route_and_assign_cases refined_category priority_score
              location_coords W)
    as [[Hr Hwhy] | (officer & n0 & n & Hin & Hlt & Hn & Hr)];
    fold base in Hr, Hwhy || fold base in Hr, Hin; fold dept in Hr |- *.
  - exists (dept +:+ "_Manager"), W. split; [done|].
    split; [|done]. right. split; [|done].
    intros [Hlt Hbase]. destruct Hwhy as [Hnil | Hge]; [|lia].
    destruct (department_officers_cases base) as [[_ Hd] | (Hn1 & Hn2 & _)];
      [|by destruct Hbase]. fold dept in Hd, Hnil.
    pose proof (water_officers_keys W HW) as Hk.
    rewrite <- Hd, Hnil in Hk. done.
  - fold dept in Hin.
    destruct (department_officers_cases base)
      as [[Hbase Hd] | (_ & _ & Hnil)]; fold dept in Hd || fold dept in Hnil.
    + assert (officer = "Officer_A_Water" ∨ officer = "Officer_B_Water") as Ho.
      { assert (officer ∈ (officers_of dept W).*1) as Hk
          by (apply list_elem_of_fmap; by exists (officer, n0)).
        rewrite Hd, (water_officers_keys W HW) in Hk.
        apply elem_of_cons in Hk as [-> | Hk]; [by left|].
        apply elem_of_cons in Hk as [-> | Hk]; [by right|].
        by apply elem_of_nil in Hk. }
      exists officer, (items_set officer (n + 1) W). split; [done|].
      split; [left; repeat split; eauto|].
      destruct Ho as [-> | ->]; repeat split; try done;
        by rewrite items_get_set_ne.
    + apply (officers_of_same_keys dept W OFFICER_WORKLOADS HW) in Hnil.
      rewrite Hnil in Hin. by apply elem_of_nil in Hin.
Qed.

Lemma source_officers_assignment_witness :
  OFFICER_WORKLOADS.*1 = OFFICER_WORKLOADS.*1
  ∧ ∃ assignee W',
      smart_route_and_assign (VStr "Road Maintenance") 3 (VStr "N/A")
        OFFICER_WORKLOADS
      = (Ok ("Public_Works_Dept", assignee), W')
      ∧ assignee ≠ "Officer_C_Roads" ∧ assignee ≠ "Officer_D_Roads".
Proof.
  split; [reflexivity|].
  destruct (source_officers_assignment "Road Maintenance" 3 (VStr "N/A")
              OFFICER_WORKLOADS eq_refl)
    as (assignee & W' & Hr & _ & HC & HD & _).
  exists assignee, W'. exact (conj Hr (conj HC HD)).
Defined.

(** ** The submission handler, case by case *)

(** The handler on a dict body, with the three defaults spelled out. *)
Lemma submit_complaint_dict now_ms jitter (m : gmap string pyval) (W : workloads) :
  submit_complaint now_ms jitter (VDict m) W =
  match validate_citizen_input (VDict m) with
  | Raise e => (SubmitFailed e, W)
  | Ok validation_errors =>
      if negb (bool_decide (validation_errors = ∅))
      then (SubmitRejected "One or more input fields failed server validation."
              validation_errors, W)
      else
        match ai_categorize_and_score jitter
                (default (VStr "") (m !! "description"))
                (default (VStr "Other") (m !! "category")) with
        | Raise e => (SubmitFailed e, W)
        | Ok (refined_category, priority_score) =>
            match smart_route_and_assign refined_category priority_score
                    (default (VStr "N/A") (m !! "location_coords")) W with
            | (Raise e, W') => (SubmitFailed e, W')
            | (Ok (_, assigned_officer), W') =>
                (SubmitAccepted (generate_unique_id now_ms) "Under Review"
                   assigned_officer priority_score, W')
            end
        end
  end.
Proof.
  unfold submit_complaint, process_complaint, dict_get.
  cbn [mbind result_bind].
  destruct (validate_citizen_input (VDict m)) as [errs|e]; [|done].
  destruct (negb (bool_decide (errs = ∅))); [done|].
  destruct (ai_categorize_and_score _ _ _) as [[rc p]|e]; [|done].
  by destruct (smart_route_and_assign _ _ _ W) as [[[d a]|e] W'].
Qed.

(** A body that is not a dict fails at the first [.get]. *)
Lemma submit_complaint_not_dict now_ms jitter data (W : workloads) :
  (∀ m, data ≠ VDict m) →
  submit_complaint now_ms jitter data W = (SubmitFailed AttributeError, W).
Proof. intros H. destruct data; try done. by destruct (H m). Qed.

(** Either the handler did not accept and the table is as it was, or it
    accepted what the classifier and the router returned. *)
Lemma submit_complaint_outcome now_ms jitter data (W : workloads) :
  (submit_success (submit_complaint now_ms jitter data W).1 = false
   ∧ (submit_complaint now_ms jitter data W).2 = W)
  ∨ ∃ m refined_category priority_score dept assignee W',
      data = VDict m
      ∧ validate_citizen_input (VDict m) = Ok ∅
      ∧ ai_categorize_and_score jitter
          (default (VStr "") (m !! "description"))
          (default (VStr "Other") (m !! "category"))
        = Ok (VStr refined_category, priority_score)
      ∧ smart_route_and_assign (VStr refined_category) priority_score
          (default (VStr "N/A") (m !! "location_coords")) W
        = (Ok (dept, assignee), W')
      ∧ submit_complaint now_ms jitter data W
        = (SubmitAccepted (generate_unique_id now_ms) "Under Review"
             assignee priority_score, W').
Proof.
  destruct data as [| | | | |m];
    try (left; by rewrite submit_complaint_not_dict).
  rewrite submit_complaint_dict.
  destruct (validate_citizen_input (VDict m)) as [errs|e] eqn:Hval; [|by left].
  destruct (bool_decide (errs = ∅)) eqn:Hb; cbn [negb]; [|by left].
  apply bool_decide_eq_true in Hb as ->.
  destruct (ai_categorize_and_score _ _ _) as [[rc p]|e] eqn:Hai; [|by left].
  destruct (not_str rc) eqn:Hrc.
  { left. by rewrite smart_route_and_assign_not_str. }
  destruct rc as [| | |c| |]; try done.
  destruct (smart_route_and_assign (VStr c) p _ W) as [[[d a]|e] W'] eqn:Hr.
  - right. by exists m, c, p, d, a, W'.
  - left. split; [done|]. simpl.
    destruct (smart_route_and_assign_effect (VStr c) p
                (default (VStr "N/A") (m !! "location_coords")) W)
      as [HW | (? & ? & ? & _ & Hr')]; [by rewrite Hr in HW|].
    rewrite Hr in Hr'. discriminate Hr'.
Qed.

(** X5. Whatever the body, the clock and the jitter, one submission keeps
    the officers of the table and their order and lowers no count; it
    raises at most one count, by exactly one, so the total of open cases
    goes up by zero or one; and a submission that is not accepted leaves
    the table exactly as it was. *)
Theorem submit_complaint_table_invariants (now_ms jitter : Z)
    (complaint_data : pyval) (W : workloads) :
  let response := (submit_complaint now_ms jitter complaint_data W).1 in
  let W' := (submit_complaint now_ms jitter complaint_data W).2 in
  W'.*1 = W.*1
  ∧ (submit_success response = false → W' = W)
  ∧ (total_open_cases W' = total_open_cases W
     ∨ total_open_cases W' = total_open_cases W + 1)
  ∧ (∀ k n, items_get k W = Some n →
       items_get k W' = Some n ∨ items_get k W' = Some (n + 1))
  ∧ (∀ k k', items_get k W' ≠ items_get k W →
       items_get k' W' ≠ items_get k' W → k = k').
Proof.
  intros response W'.
  destruct (submit_complaint_outcome now_ms jitter complaint_data W)
    as [[Hs HW] | (m & rc & p & d & a & W1 & -> & _ & _ & Hr & Hsub)];
    subst response W'.
  - rewrite HW. repeat split; auto. intros k k' Hk. done.
  - rewrite Hsub. simpl.
    pose proof (smart_route_and_assign_keys (VStr rc) p
                  (default (VStr "N/A") (m !! "location_coords")) W) as Hk.
    rewrite Hr in Hk. simpl in Hk. split; [done|]. split; [done|].
    destruct (smart_route_and_assign_effect (VStr rc) p
                (default (VStr "N/A") (m !! "location_coords")) W)
      as [HW | (d' & o & n & Hn & Hr')]; rewrite Hr in *; simpl in *.
    + subst W1. repeat split; auto. intros k k' Hk'. done.
    + injection Hr' as _ _ ->. split; [|split].
      * right. rewrite (total_items_set W o n _ Hn). lia.
      * intros k n' Hk'. rewrite items_get_set.
        destruct (decide (o = k)) as [->|_]; [|by left]. right. congruence.
      * intros k k'. rewrite !items_get_set.
        destruct (decide (o = k)) as [->|_]; [|done].
        destruct (decide (k = k')) as [->|_]; done.
Qed.

(** X6. A submission accepted with a priority of 8 or more is assigned to
    a manager, a name ending in "_Manager", and leaves the table as it was;
    its tracking id is the one drawn from the clock and its status is
    "Under Review". *)
Theorem escalated_submission_goes_to_manager (now_ms jitter : Z)
    (complaint_data : pyval) (W W' : workloads)
    (tracking_id status assigned_to : string) (priority : Z) :
  submit_complaint now_ms jitter complaint_data W
  = (SubmitAccepted tracking_id status assigned_to priority, W') →
  8 ≤ priority →
  endswith assigned_to "_Manager" = true
  ∧ W' = W
  ∧ tracking_id = generate_unique_id now_ms
  ∧ status = "Under Review".
Proof.
  intros Hsub Hp.
  destruct (submit_complaint_outcome now_ms jitter complaint_data W)
    as [[Hs _] | (m & rc & p & d & a & W1 & -> & _ & _ & Hr & Hsub')].
  { by rewrite Hsub in Hs. }
  rewrite Hsub in Hsub'. injection Hsub' as -> -> -> -> ->.
  pose proof (smart_route_and_assign_cases rc p
                (default (VStr "N/A") (m !! "location_coords")) W) as Hcases.
  cbv zeta in Hcases.
  remember (target_department_of (first_piece (split "_" rc))) as dept
    eqn:Hdept.
  destruct Hcases as [[Hr' _] | (? & ? & ? & _ & Hlt & _)]; [|lia].
  rewrite Hr in Hr'. injection Hr' as _ -> ->.
  repeat split; try done. apply endswith_app.
Qed.

Lemma escalated_submission_goes_to_manager_witness :
  submit_complaint 1730000123456 1 scenario OFFICER_WORKLOADS
  = (SubmitAccepted "GRV-123456" "Under Review" "General_Admin_Dept_Manager" 8,
     OFFICER_WORKLOADS)
  ∧ 8 ≤ 8
  ∧ endswith "General_Admin_Dept_Manager" "_Manager" = true.
Proof.
  assert (submit_complaint 1730000123456 1 scenario OFFICER_WORKLOADS
          = (SubmitAccepted "GRV-123456" "Under Review"
               "General_Admin_Dept_Manager" 8, OFFICER_WORKLOADS)) as Hsub
    by reflexivity.
  assert (8 ≤ 8) as Hp by lia.
  split; [exact Hsub|]. split; [exact Hp|].
  exact (proj1 (escalated_submission_goes_to_manager _ _ _ _ _ _ _ _ _ Hsub Hp)).
Defined.

(** ** The classifier, case by case *)

(** The classifier on a string description: what is left to evaluate once
    the description is lower-cased. *)
Lemma ai_categorize_and_score_desc jitter (description : string) citizen_category :
  ai_categorize_and_score jitter (VStr description) citizen_category =
  let keywords := lower description in
  let refined_category :=
    if contains "pothole" keywords || contains "cracked road" keywords
    then VStr "Pothole_Major"
    else if contains "leakage" keywords || contains "no water" keywords
    then VStr "Water_Leakage_Critical"
    else citizen_category in
  let priority_score :=
    3 + jitter
    + Z.of_nat (length (filter (λ word, contains word keywords = true)
                          critical_words)) * 2 in
  refined_lower ← py_lower refined_category;
  bump ← (if contains "critical" refined_lower then Ok true
          else citizen_lower ← py_lower citizen_category;
               Ok (contains "safety" citizen_lower));
  Ok (refined_category,
      Z.min 10 (if bump : bool then priority_score + 2 else priority_score)).
Proof. reflexivity. Qed.

Lemma lower_char_idem c : lower_char (lower_char c) = lower_char c.
Proof. by_all_chars c. Qed.

Lemma lower_idem s : lower (lower s) = lower s.
Proof.
  unfold lower. induction s as [|c s IH]; simpl; [done|].
  by rewrite lower_char_idem, IH.
Qed.

(** X7. The classifier reads the description only through its lower-cased
    form: a description and its lower-cased copy get the same answer, for
    any category and jitter. *)
Theorem classifier_ignores_description_case (jitter : Z)
    (description : string) (citizen_category : pyval) :
  ai_categorize_and_score jitter (VStr (lower description)) citizen_category
  = ai_categorize_and_score jitter (VStr description) citizen_category.
Proof. by rewrite !ai_categorize_and_score_desc, lower_idem. Qed.

(** X8. With a category that is not a string, the classifier returns only
    when the description mentions "leakage" or "no water" and neither
    "pothole" nor "cracked road": the refined category then contains
    "critical", the test on the declared category is skipped, and the
    result is "Water_Leakage_Critical" with the two bonus points.  In every
    other case it raises AttributeError. *)
Theorem classifier_non_string_category (jitter : Z) (description : string)
    (citizen_category : pyval) :
  not_str citizen_category = true →
  let keywords := lower description in
  let road := contains "pothole" keywords || contains "cracked road" keywords in
  let water := contains "leakage" keywords || contains "no water" keywords in
  let found :=
    length (filter (λ word, contains word keywords = true) critical_words) in
  ai_categorize_and_score jitter (VStr description) citizen_category
  = if negb road && water
    then Ok (VStr "Water_Leakage_Critical",
             Z.min 10 (3 + jitter + Z.of_nat found * 2 + 2))
    else Raise AttributeError.
Proof.
  intros Hc keywords road water found.
  rewrite ai_categorize_and_score_desc. cbv zeta.
  fold keywords. fold road. fold water. fold found.
  destruct road; [|destruct water]; cbn [negb andb].
  - change (py_lower (VStr "Pothole_Major")) with (Ok "pothole_major").
    cbn [mbind result_bind].
    change (contains "critical" "pothole_major") with false. cbv iota.
    by destruct citizen_category.
  - change (py_lower (VStr "Water_Leakage_Critical"))
      with (Ok "water_leakage_critical").
    cbn [mbind result_bind].
    change (contains "critical" "water_leakage_critical") with true.
    reflexivity.
  - by destruct citizen_category.
Qed.

Lemma classifier_non_string_category_witness :
  not_str VNone = true
  ∧ ai_categorize_and_score 1 (VStr "Leakage near the school") VNone
    = Ok (VStr "Water_Leakage_Critical", 6)
  ∧ ai_categorize_and_score 1 (VStr "Big pothole") VNone = Raise AttributeError.
Proof.
  assert (not_str VNone = true) as H by reflexivity.
  split; [exact H|]. split.
  - exact (classifier_non_string_category 1 "Leakage near the school" VNone H).
  - exact (classifier_non_string_category 1 "Big pothole" VNone H).
Defined.

(** X9. The jitter moves nothing but the score: with the same description
    and category, two jitter values either both make the classifier raise
    the same exception or both make it return the same refined category,
    and then a larger jitter gives a score at least as large and larger by
    no more than the difference of the jitters. *)
Theorem classifier_jitter_only_moves_score (jitter1 jitter2 : Z)
    (description citizen_category : pyval) :
  match ai_categorize_and_score jitter1 description citizen_category,
        ai_categorize_and_score jitter2 description citizen_category with
  | Ok (refined1, score1), Ok (refined2, score2) =>
      refined1 = refined2
      ∧ (jitter1 ≤ jitter2 → score1 ≤ score2 ≤ score1 + (jitter2 - jitter1))
  | Raise e1, Raise e2 => e1 = e2
  | _, _ => False
  end.
Proof.
  destruct description as [| | |d| |]; try done.
  rewrite !ai_categorize_and_score_desc. cbv zeta.
  match goal with
  | |- context [py_lower ?v ≫= _] => destruct (py_lower v) as [rl|]
  end; cbn [mbind result_bind]; [|done].
  destruct (contains "critical" rl); cbn [mbind result_bind].
  - split; [done|]. lia.
  - destruct (py_lower citizen_category) as [cl|]; cbn [mbind result_bind];
      [|done].
    split; [done|]. destruct (contains "safety" cl); lia.
Qed.

(** X10. A returned score is at least 5, for a jitter that is not
    negative, whenever the refined category contains "critical" in any
    letter case or the declared category is a string that contains "safety"
    in any letter case. *)
Theorem classifier_bonus_floor (jitter : Z) (description citizen_category : pyval)
    (refined_category : string) (priority_score : Z) :
  0 ≤ jitter →
  ai_categorize_and_score jitter description citizen_category
  = Ok (VStr refined_category, priority_score) →
  occurs_in "critical" (lower refined_category)
  ∨ (∃ c, citizen_category = VStr c ∧ occurs_in "safety" (lower c)) →
  5 ≤ priority_score.
Proof.
  intros Hj Hai Hwhy.
  destruct description as [| | |d| |]; try done.
  rewrite ai_categorize_and_score_desc in Hai. cbv zeta in Hai.
  match type of Hai with
  | context [py_lower ?v ≫= _] =>
      destruct v as [| | |r| |] eqn:Hv; try done
  end.
  cbn [py_lower mbind result_bind] in Hai.
  destruct (contains "critical" (lower r)) eqn:Hcrit;
    cbn [mbind result_bind] in Hai.
  - injection Hai as _ <-. lia.
  - destruct citizen_category as [| | |c| |]; try done.
    cbn [py_lower mbind result_bind] in Hai. injection Hai as -> <-.
    destruct Hwhy as [Hc | (c' & [= <-] & Hs)].
    + apply contains_spec in Hc. congruence.
    + apply contains_spec in Hs. rewrite Hs. lia.
Qed.

Lemma classifier_bonus_floor_witness :
  0 ≤ 0
  ∧ ai_categorize_and_score 0 (VStr "street light is out") (VStr "Public Safety")
    = Ok (VStr "Public Safety", 5)
  ∧ 5 ≤ 5.
Proof.
  assert (0 ≤ 0) as Hj by lia.
  assert (ai_categorize_and_score 0 (VStr "street light is out")
            (VStr "Public Safety") = Ok (VStr "Public Safety", 5)) as Hai
    by reflexivity.
  split; [exact Hj|]. split; [exact Hai|].
  apply (classifier_bonus_floor 0 _ _ _ _ Hj Hai).
  right. exists "Public Safety". split; [reflexivity|].
  by exists "public ", "".
Defined.

(** ** The submission handler: acceptance and failures *)

(** X11. A dict body that passes validation and whose description and
    category are strings, or are missing, is always accepted, whatever the
    table: the answer has status 200, the tracking id drawn from the clock,
    the status "Under Review" and, for a jitter among 0, 1 and 2, a
    priority between 3 and 10.  No exception path of the classifier or of
    the router is reachable from such a body. *)
Theorem valid_submission_accepted (now_ms jitter : Z)
    (m : gmap string pyval) (W : workloads) :
  validate_citizen_input (VDict m) = Ok ∅ →
  not_str (default (VStr "") (m !! "description")) = false →
  not_str (default (VStr "Other") (m !! "category")) = false →
  0 ≤ jitter ≤ 2 →
  ∃ assigned_to priority W',
    submit_complaint now_ms jitter (VDict m) W
    = (SubmitAccepted (generate_unique_id now_ms) "Under Review"
         assigned_to priority, W')
    ∧ 3 ≤ priority ≤ 10.
Proof.
  intros Hval Hd Hc Hj. rewrite submit_complaint_dict, Hval.
  rewrite bool_decide_eq_true_2 by done. cbn [negb].
  destruct (default (VStr "") (m !! "description")) as [| | |d| |]; try done.
  destruct (default (VStr "Other") (m !! "category")) as [| | |c| |]; try done.
  destruct (ai_categorize_and_score jitter (VStr d) (VStr c))
    as [[rc p]|e] eqn:Hai;
    rewrite ai_categorize_and_score_str in Hai; cbv zeta in Hai; [|done].
  injection Hai as <- Hp.
  assert (3 ≤ p ≤ 10) as Hbounds.
  { pose proof (ai_categorize_and_score_str jitter d c) as Hai.
    cbv zeta in Hai. rewrite Hp in Hai.
    apply ai_categorize_and_score_form in Hai as (found & bump & ->).
    destruct bump; lia. }
  match goal with
  | |- context [smart_route_and_assign (VStr ?r) p ?loc W] =>
      destruct (smart_route_and_assign_cases r p loc W)
        as [[-> _] | (o & n0 & n & _ & _ & _ & ->)]
  end; by eexists _, _, _.
Qed.

Lemma valid_submission_accepted_witness :
  let m : gmap string pyval :=
    {[ "phone" := VStr "9876543210"; "public_id" := VStr "AB12345678";
       "email" := VStr "a@b.com"; "category" := VStr "Water Supply" ]} in
  validate_citizen_input (VDict m) = Ok ∅
  ∧ 0 ≤ 2 ≤ 2
  ∧ ∃ assigned_to priority W',
      submit_complaint 42 2 (VDict m) OFFICER_WORKLOADS
      = (SubmitAccepted (generate_unique_id 42) "Under Review"
           assigned_to priority, W')
      ∧ 3 ≤ priority ≤ 10.
Proof.
  intros m.
  assert (validate_citizen_input (VDict m) = Ok ∅) as Hval by reflexivity.
  assert (0 ≤ 2 ≤ 2) as Hj by lia.
  split; [exact Hval|]. split; [exact Hj|].
  exact (valid_submission_accepted 42 2 m OFFICER_WORKLOADS Hval eq_refl
           eq_refl Hj).
Defined.

(** The validator raises on a body that is not a dict, and on a dict in
    which one of the three fields is present and is not a string. *)
Lemma validate_citizen_input_raises data e :
  validate_citizen_input data = Raise e ↔
  ((∀ m, data ≠ VDict m) ∧ e = AttributeError)
  ∨ (∃ m, data = VDict m ∧ e = TypeError
          ∧ (not_str (default (VStr "") (m !! "phone")) = true
             ∨ not_str (default (VStr "") (m !! "public_id")) = true
             ∨ not_str (default (VStr "") (m !! "email")) = true)).
Proof.
  destruct data as [| | | | |m];
    try (split; [intros [= <-]; by left
                | intros [[_ ->] | (m & ? & _)]; [reflexivity | done]]).
  unfold validate_citizen_input, dict_get. cbn [mbind result_bind].
  split.
  - intros H. right. exists m. split; [done|].
    destruct (default (VStr "") (m !! "phone")) as [| | |ph| |];
      try (injection H as <-; split; [done | by left]).
    destruct (default (VStr "") (m !! "public_id")) as [| | |pid| |];
      try (injection H as <-; split; [done | by right; left]).
    destruct (default (VStr "") (m !! "email")) as [| | |em| |];
      try (injection H as <-; split; [done | by right; right]).
    discriminate H.
  - intros [[H _] | (m' & [= <-] & -> & H)]; [by destruct (H m)|].
    destruct (default (VStr "") (m !! "phone")) as [| | |ph| |]; try done.
    destruct (default (VStr "") (m !! "public_id")) as [| | |pid| |]; try done.
    destruct (default (VStr "") (m !! "email")) as [| | |em| |]; try done.
    by destruct H as [H | [H | H]].
Qed.

(** X12. The validator raises exactly in two cases: AttributeError when
    the body is not a dict, TypeError when the body is a dict in which
    phone, public_id or email is present and is not a string (a JSON null,
    number, boolean, list or object).  The handler then answers with status
    500 and the exception, not with a field-level rejection, and the table
    is untouched. *)
Theorem malformed_submission_is_server_error (complaint_data : pyval) (e : exn) :
  (validate_citizen_input complaint_data = Raise e ↔
   ((∀ m, complaint_data ≠ VDict m) ∧ e = AttributeError)
   ∨ (∃ m, complaint_data = VDict m ∧ e = TypeError
           ∧ (not_str (default (VStr "") (m !! "phone")) = true
              ∨ not_str (default (VStr "") (m !! "public_id")) = true
              ∨ not_str (default (VStr "") (m !! "email")) = true)))
  ∧ ∀ (now_ms jitter : Z) (W : workloads),
      validate_citizen_input complaint_data = Raise e →
      submit_complaint now_ms jitter complaint_data W = (SubmitFailed e, W)
      ∧ submit_status (submit_complaint now_ms jitter complaint_data W).1 = 500.
Proof.
  split; [apply validate_citizen_input_raises|].
  intros now_ms jitter W H. unfold submit_complaint. by rewrite H.
Qed.

(** The two refined categories the classifier makes up resolve to the
    fallback department, which has no officer in a table with the officers
    of the source. *)
Lemma made_up_category_route (refined_category : string) score loc (W : workloads) :
  refined_category = "Pothole_Major"
  ∨ refined_category = "Water_Leakage_Critical" →
  W.*1 = OFFICER_WORKLOADS.*1 →
  smart_route_and_assign (VStr refined_category) score loc W
  = (Ok ("General_Admin_Dept", "General_Admin_Dept_Manager"), W).
Proof.
  intros Hrc HW. rewrite smart_route_and_assign_str. cbv zeta.
  assert (target_department_of (first_piece (split "_" refined_category))
          = "General_Admin_Dept") as -> by (by destruct Hrc as [-> | ->]).
  by rewrite (officers_of_same_keys "General_Admin_Dept" W OFFICER_WORKLOADS HW).
Qed.

(** X13. With the officers of the source in the table, a valid submission
    whose description mentions "pothole" or "cracked road" (the category
    being a string or missing), or else "leakage" or "no water" (whatever
    the category), is always assigned to "General_Admin_Dept_Manager" and
    leaves the table as it was: the keys "Pothole" and "Water" of the
    made-up categories are not keys of the department mapping, so the
    declared category no longer decides the department and no officer is
    ever given such a complaint. *)
Theorem keyword_complaints_go_to_general_admin (now_ms jitter : Z)
    (m : gmap string pyval) (description : string) (W : workloads) :
  validate_citizen_input (VDict m) = Ok ∅ →
  m !! "description" = Some (VStr description) →
  W.*1 = OFFICER_WORKLOADS.*1 →
  let keywords := lower description in
  let road := occurs_in "pothole" keywords ∨ occurs_in "cracked road" keywords in
  let water := occurs_in "leakage" keywords ∨ occurs_in "no water" keywords in
  (road ∧ not_str (default (VStr "Other") (m !! "category")) = false)
  ∨ (¬ road ∧ water) →
  ∃ priority,
    submit_complaint now_ms jitter (VDict m) W
    = (SubmitAccepted (generate_unique_id now_ms) "Under Review"
         "General_Admin_Dept_Manager" priority, W).
Proof.
  intros Hval Hdesc HW keywords road water Hcase.
  rewrite submit_complaint_dict, Hval, Hdesc.
  rewrite bool_decide_eq_true_2 by done. cbn [negb from_option id].
  assert (contains "pothole" keywords || contains "cracked road" keywords = true
          ↔ road) as Hroad
    by (subst road; by rewrite orb_true_iff, !contains_spec).
  assert (contains "leakage" keywords || contains "no water" keywords = true
          ↔ water) as Hwater
    by (subst water; by rewrite orb_true_iff, !contains_spec).
  destruct Hcase as [[Hr Hc] | [Hnr Hw]].
  - destruct (default (VStr "Other") (m !! "category")) as [| | |c| |];
      try done.
    rewrite ai_categorize_and_score_str. cbv zeta. fold keywords.
    apply Hroad in Hr. rewrite Hr.
    rewrite made_up_category_route by auto. by eexists.
  - assert (contains "pothole" keywords || contains "cracked road" keywords
            = false) as Hr0.
    { apply not_true_is_false. by rewrite Hroad. }
    apply Hwater in Hw.
    rewrite ai_categorize_and_score_desc. cbv zeta. fold keywords.
    rewrite Hr0, Hw.
    change (py_lower (VStr "Water_Leakage_Critical"))
      with (Ok "water_leakage_critical").
    cbn [mbind result_bind].
    change (contains "critical" "water_leakage_critical") with true.
    cbn [mbind result_bind].
    rewrite made_up_category_route by auto. by eexists.
Qed.

Lemma keyword_complaints_go_to_general_admin_witness :
  let m : gmap string pyval :=
    {[ "phone" := VStr "9876543210"; "public_id" := VStr "AB12345678";
       "email" := VStr "a@b.com"; "category" := VStr "Water Supply";
       "description" := VStr "No water in our lane" ]} in
  validate_citizen_input (VDict m) = Ok ∅
  ∧ m !! "description" = Some (VStr "No water in our lane")
  ∧ OFFICER_WORKLOADS.*1 = OFFICER_WORKLOADS.*1
  ∧ ∃ priority,
      submit_complaint 42 0 (VDict m) OFFICER_WORKLOADS
      = (SubmitAccepted (generate_unique_id 42) "Under Review"
           "General_Admin_Dept_Manager" priority, OFFICER_WORKLOADS).
Proof.
  intros m.
  assert (validate_citizen_input (VDict m) = Ok ∅) as Hval by reflexivity.
  assert (m !! "description" = Some (VStr "No water in our lane")) as Hd
    by reflexivity.
  split; [exact Hval|]. split; [exact Hd|]. split; [reflexivity|].
  apply (keyword_complaints_go_to_general_admin 42 0 m "No water in our lane"
           OFFICER_WORKLOADS Hval Hd eq_refl).
  right. split.
  - intros [H | H]; apply contains_spec in H; discriminate H.
  - right. by exists "", " in our lane".
Defined.

(** ** The validator: what it reads and what it lets through *)

(** X14. The validator reads the body through the keys phone, public_id
    and email only: setting or removing any other key leaves its result,
    error dict or exception, unchanged. *)
Theorem validation_reads_three_fields (m : gmap string pyval) (k : string)
    (v : pyval) :
  k ≠ "phone" → k ≠ "public_id" → k ≠ "email" →
  validate_citizen_input (VDict (<[k := v]> m)) = validate_citizen_input (VDict m)
  ∧ validate_citizen_input (VDict (delete k m)) = validate_citizen_input (VDict m).
Proof.
  intros H1 H2 H3. unfold validate_citizen_input, dict_get.
  by rewrite !lookup_insert_ne, !lookup_delete_ne by done.
Qed.

Lemma validation_reads_three_fields_witness :
  let m : gmap string pyval := {[ "phone" := VStr "12345" ]} in
  "description" ≠ "phone" ∧ "description" ≠ "public_id" ∧ "description" ≠ "email"
  ∧ validate_citizen_input (VDict (<["description" := VInt 7]> m))
    = validate_citizen_input (VDict m).
Proof.
  intros m.
  assert ("description" ≠ "phone") as H1 by discriminate.
  assert ("description" ≠ "public_id") as H2 by discriminate.
  assert ("description" ≠ "email") as H3 by discriminate.
  split; [exact H1|]. split; [exact H2|]. split; [exact H3|].
  exact (proj1 (validation_reads_three_fields m "description" (VInt 7) H1 H2 H3)).
Defined.

Lemma str_all_impl (f g : ascii → bool) s :
  (∀ c, f c = true → g c = true) → str_all f s = true → str_all g s = true.
Proof.
  intros Hfg. induction s as [|c s IH]; simpl; [done|].
  rewrite !andb_true_iff. intros [Hc Hs]. auto.
Qed.

Lemma str_count_app c (a b : string) :
  str_count c (a +:+ b) = (str_count c a + str_count c b)%nat.
Proof. induction a as [|d a IH]; simpl; [done|]. rewrite IH. lia. Qed.

Lemma str_count_none (f : ascii → bool) c s :
  f c = false → str_all f s = true → str_count c s = 0%nat.
Proof.
  intros Hc. induction s as [|d s IH]; simpl; [done|].
  rewrite andb_true_iff. intros [Hd Hs]. rewrite (IH Hs).
  destruct (Ascii.eqb_spec d c) as [->|_]; [congruence | done].
Qed.

Lemma str_length_app (a b : string) :
  String.length (a +:+ b) = (String.length a + String.length b)%nat.
Proof. induction a as [|c a IH]; simpl; [done | by rewrite IH]. Qed.

Lemma email_char_classes c :
  implb (is_letter c) (is_email_char c) = true
  ∧ implb (is_domain_char c) (is_email_char c) = true.
Proof. split; by_all_chars c. Qed.

Lemma is_letter_email_char c : is_letter c = true → is_email_char c = true.
Proof. intros H. pose proof (proj1 (email_char_classes c)) as Hi. by rewrite H in Hi. Qed.

Lemma is_domain_email_char c : is_domain_char c = true → is_email_char c = true.
Proof. intros H. pose proof (proj2 (email_char_classes c)) as Hi. by rewrite H in Hi. Qed.

Lemma is_local_email_char c : is_local_char c = true → is_email_char c = true.
Proof. unfold is_email_char. by intros ->. Qed.

(** What every string of the email shape has. *)
Lemma email_shape_facts s :
  email_shape s →
  str_count "@" s = 1%nat
  ∧ (6 ≤ String.length s)%nat
  ∧ str_all is_email_char s = true.
Proof.
  intros (loc & dom & tld & -> & Hl & Hla & Hd & Hda & Ht & Hta).
  change ("@" +:+ dom +:+ "." +:+ tld) with (String "@" (dom +:+ String "." tld)).
  split; [|split].
  - rewrite str_count_app. simpl. rewrite str_count_app. simpl.
    rewrite (str_count_none is_local_char "@" loc), (str_count_none
      is_domain_char "@" dom), (str_count_none is_letter "@" tld); done.
  - rewrite str_length_app. simpl. rewrite str_length_app. simpl. lia.
  - rewrite str_all_app. simpl. rewrite str_all_app. simpl.
    rewrite (str_all_impl _ _ loc is_local_email_char Hla),
      (str_all_impl _ _ dom is_domain_email_char Hda),
      (str_all_impl _ _ tld is_letter_email_char Hta). done.
Qed.

(** X15. An email the validator lets through holds exactly one "@", is at
    least 6 characters long and is made only of letters, digits and the
    characters . _ % + - @, so it holds no space, newline or control
    character. *)
Theorem accepted_email_facts (m : gmap string pyval) (email : string)
    (errors : gmap string string) :
  text_field m "email" email →
  validate_citizen_input (VDict m) = Ok errors →
  "email" ∉ dom errors →
  str_count "@" email = 1%nat
  ∧ (6 ≤ String.length email)%nat
  ∧ str_all is_email_char email = true.
Proof.
  intros He Hval Hno. apply email_shape_facts, email_re_spec.
  unfold validate_citizen_input, dict_get in Hval.
  cbn [mbind result_bind] in Hval.
  assert (default (VStr "") (m !! "email") = VStr email) as Hem
    by (by destruct He as [-> | [-> ->]]).
  rewrite Hem in Hval.
  destruct (default (VStr "") (m !! "phone")) as [| | |ph| |]; try done.
  destruct (default (VStr "") (m !! "public_id")) as [| | |pid| |]; try done.
  cbn [re_fullmatch mbind result_bind] in Hval. injection Hval as <-.
  destruct (fullmatch email_re email); [done|]. exfalso. apply Hno.
  cbn [negb set_if]. rewrite dom_insert_L. set_solver.
Qed.

Lemma accepted_email_facts_witness :
  let m : gmap string pyval := {[ "email" := VStr "a.b@x.org" ]} in
  let errors : gmap string string :=
    {[ "phone" := "Phone number must be exactly 10 digits.";
       "public_id" := "Public ID must be 10 to 12 alphanumeric characters." ]} in
  text_field m "email" "a.b@x.org"
  ∧ validate_citizen_input (VDict m) = Ok errors
  ∧ ("email" ∉ dom errors)
  ∧ str_count "@" "a.b@x.org" = 1%nat.
Proof.
  intros m errors.
  assert (text_field m "email" "a.b@x.org") as He by (left; reflexivity).
  assert (validate_citizen_input (VDict m) = Ok errors) as Hval by reflexivity.
  assert ("email" ∉ dom errors) as Hno
    by (apply not_elem_of_dom; reflexivity).
  split; [exact He|]. split; [exact Hval|]. split; [exact Hno|].
  exact (proj1 (accepted_email_facts m "a.b@x.org" errors He Hval Hno)).
Defined.

Lemma str_all_snoc f s c :
  str_all f (s +:+ String c "") = str_all f s && f c.
Proof. rewrite str_all_app. simpl. by rewrite andb_true_r. Qed.

(** X16. Although [$] alone also holds before a final newline, no value
    that ends with a newline passes any of the three patterns under
    [re.fullmatch]. *)
Theorem trailing_newline_never_matches (s : string) :
  fullmatch phone_re (s +:+ String newline "") = false
  ∧ fullmatch public_id_re (s +:+ String newline "") = false
  ∧ fullmatch email_re (s +:+ String newline "") = false.
Proof.
  repeat split; apply not_true_is_false.
  - rewrite phone_re_spec. intros [_ H]. rewrite str_all_snoc in H.
    apply andb_true_iff in H as [_ H]. discriminate H.
  - rewrite public_id_re_spec. intros [_ H]. rewrite str_all_snoc in H.
    apply andb_true_iff in H as [_ H]. discriminate H.
  - rewrite email_re_spec. intros (_ & _ & H)%email_shape_facts.
    rewrite str_all_snoc in H. apply andb_true_iff in H as [_ H].
    discriminate H.
Qed.

(** ** The login handler, case by case *)

Section login_cases.
Variable py_hash : string → Z.

(** The handler on a dict body, with the three fields read. *)
Lemma official_login_dict (m : gmap string pyval) :
  official_login py_hash (VDict m) =
  let username := default VNone (m !! "username") in
  let password := default VNone (m !! "password") in
  let gov_id := default VNone (m !! "govt_id") in
  if negb (truthy username) || negb (truthy password) || negb (truthy gov_id)
  then Ok LoginMissingFields
  else
    match username with
    | VList _ | VDict _ => Raise TypeError
    | VNone | VBool _ | VInt _ => Ok LoginInvalidCredentials
    | VStr user =>
        match OFFICIALS_DB !! user with
        | None => Ok LoginInvalidCredentials
        | Some official_record =>
            if negb (String.eqb (password_hash official_record)
                       ("hashed_password_" +:+
                        last_piece (split "." (first_piece (split "@" user)))))
            then Ok LoginInvalidCredentials
            else if str_ne (stored_govt_id official_record) gov_id
            then Ok LoginGovtIdMismatch
            else
              Ok (LoginOk ("JWT." +:+ department official_record +:+ "."
                           +:+ pretty (py_hash user))
                    (department official_record) (name official_record))
        end
    end.
Proof. reflexivity. Qed.

(** For a user of the directory, once the three fields are truthy, only
    the government id decides. *)
Lemma official_login_known (m : gmap string pyval) user official_record :
  m !! "username" = Some (VStr user) →
  OFFICIALS_DB !! user = Some official_record →
  truthy (default VNone (m !! "password")) = true →
  truthy (default VNone (m !! "govt_id")) = true →
  official_login py_hash (VDict m)
  = Ok (if str_ne (stored_govt_id official_record)
             (default VNone (m !! "govt_id"))
        then LoginGovtIdMismatch
        else LoginOk ("JWT." +:+ department official_record +:+ "."
                      +:+ pretty (py_hash user))
               (department official_record) (name official_record)).
Proof.
  intros Hu Hdb Hp Hg. rewrite official_login_dict. cbv zeta.
  rewrite Hu, Hp, Hg. cbn [from_option id].
  pose proof Hdb as Hcases.
  apply OFFICIALS_DB_lookup in Hcases as [[-> ->] | [-> ->]];
    cbn [truthy negb orb String.eqb]; rewrite Hdb;
    by destruct (str_ne _ _).
Qed.

Lemma official_login_not_dict data :
  (∀ m, data ≠ VDict m) → official_login py_hash data = Raise AttributeError.
Proof. intros H. destruct data; try done. by destruct (H m). Qed.
End login_cases.

(** X17. On a dict body the answer is "missing fields" exactly when one of
    username, password and govt_id is falsy: absent, null, false, 0, the
    empty string, the empty list or the empty object. *)
Theorem login_missing_fields_iff (py_hash : string → Z) (m : gmap string pyval) :
  official_login py_hash (VDict m) = Ok LoginMissingFields ↔
  truthy (default VNone (m !! "username")) = false
  ∨ truthy (default VNone (m !! "password")) = false
  ∨ truthy (default VNone (m !! "govt_id")) = false.
Proof.
  rewrite official_login_dict. cbv zeta.
  destruct (truthy (default VNone (m !! "username"))) eqn:Hu;
    destruct (truthy (default VNone (m !! "password"))) eqn:Hp;
    destruct (truthy (default VNone (m !! "govt_id"))) eqn:Hg;
    cbn [negb orb]; try (split; [auto | done]).
  split; [|by intros [? | [? | ?]]]. intros H. exfalso.
  destruct (default VNone (m !! "username")) as [| | |user| |]; try done.
  destruct (OFFICIALS_DB !! user) as [r|]; [|done].
  destruct (negb _); [done|]. by destruct (str_ne _ _).
Qed.

(** X18. The handler answers success exactly when the body is a dict whose
    username is a string of the directory, whose govt_id is the string
    stored for that user and whose password is any truthy value; the
    department and the name are those of the record and the token is
    "JWT.", the department, a dot and the hash of the user name. *)
Theorem login_success_iff (py_hash : string → Z) (data : pyval)
    (token dept official_name : string) :
  official_login py_hash data = Ok (LoginOk token dept official_name) ↔
  ∃ m user official_record,
    data = VDict m
    ∧ m !! "username" = Some (VStr user)
    ∧ OFFICIALS_DB !! user = Some official_record
    ∧ truthy (default VNone (m !! "password")) = true
    ∧ m !! "govt_id" = Some (VStr (stored_govt_id official_record))
    ∧ token = "JWT." +:+ department official_record +:+ "."
              +:+ pretty (py_hash user)
    ∧ dept = department official_record
    ∧ official_name = name official_record.
Proof.
  split.
  - destruct data as [| | | | |m]; try done.
    rewrite official_login_dict. cbv zeta.
    destruct (m !! "username") as [[| | |user| |]|] eqn:Hu; cbn [from_option id];
      try (by destruct (negb _ || _ || _)).
    destruct (truthy (default VNone (m !! "password"))) eqn:Hp;
      [|by rewrite orb_true_r].
    destruct (negb _ || _ || _); [done|].
    destruct (OFFICIALS_DB !! user) as [r|] eqn:Hdb; [|done].
    destruct (negb _); [done|].
    destruct (m !! "govt_id") as [[| | |g| |]|] eqn:Hg; cbn [from_option id];
      try done.
    cbn [str_ne]. destruct (String.eqb_spec (stored_govt_id r) g) as [<-|_];
      [|done].
    cbn [negb]. intros [= <- <- <-]. by exists m, user, r.
  - intros (m & user & r & -> & Hu & Hdb & Hp & Hg & -> & -> & ->).
    assert (truthy (default VNone (m !! "govt_id")) = true) as Hgt.
    { rewrite Hg. cbn [from_option id].
      by apply OFFICIALS_DB_lookup in Hdb as [[-> ->] | [-> ->]]. }
    rewrite (official_login_known py_hash m user r Hu Hdb Hp Hgt), Hg.
    cbn [from_option id str_ne]. by rewrite String.eqb_refl.
Qed.

(** X19. The handler lets an exception out in exactly two cases:
    AttributeError when the body is not a dict, TypeError when the three
    fields are truthy and the username is a list or an object, which cannot
    be looked up in the directory. *)
Theorem login_raises_iff (py_hash : string → Z) (data : pyval) (e : exn) :
  official_login py_hash data = Raise e ↔
  ((∀ m, data ≠ VDict m) ∧ e = AttributeError)
  ∨ (∃ m, data = VDict m ∧ e = TypeError
          ∧ unhashable (default VNone (m !! "username")) = true
          ∧ truthy (default VNone (m !! "username")) = true
          ∧ truthy (default VNone (m !! "password")) = true
          ∧ truthy (default VNone (m !! "govt_id")) = true).
Proof.
  destruct data as [| | | | |m];
    try (split; [intros [= <-]; by left
                | intros [[_ ->] | (m & ? & _)]; [reflexivity | done]]).
  rewrite official_login_dict. cbv zeta. split.
  - intros H. right. exists m.
    destruct (truthy (default VNone (m !! "username"))) eqn:Hu;
      destruct (truthy (default VNone (m !! "password"))) eqn:Hp;
      destruct (truthy (default VNone (m !! "govt_id"))) eqn:Hg;
      cbn [negb orb] in H; try done.
    destruct (default VNone (m !! "username")) as [| | |user| |];
      try done; try (by injection H as <-).
    destruct (OFFICIALS_DB !! user) as [r|]; [|done].
    destruct (negb _); [done|]. by destruct (str_ne _ _).
  - intros [[H _] | (m' & [= <-] & -> & Hun & Hu & Hp & Hg)];
      [by destruct (H m)|].
    rewrite Hu, Hp, Hg. cbn [negb orb].
    by destruct (default VNone (m !! "username")).
Qed.

(** X20. With a non-empty string as username and truthy password and
    govt_id, the answer is "invalid credentials" exactly when the user name
    is not in the directory; for a user of the directory it is either the
    success or "government id mismatch".  The answer thus tells a
    registered user name from an unregistered one. *)
Theorem login_reveals_registered_user (py_hash : string → Z)
    (m : gmap string pyval) (user : string) :
  m !! "username" = Some (VStr user) →
  user ≠ "" →
  truthy (default VNone (m !! "password")) = true →
  truthy (default VNone (m !! "govt_id")) = true →
  (official_login py_hash (VDict m) = Ok LoginInvalidCredentials
   ↔ OFFICIALS_DB !! user = None)
  ∧ (∀ official_record, OFFICIALS_DB !! user = Some official_record →
       official_login py_hash (VDict m) = Ok LoginGovtIdMismatch
       ∨ official_login py_hash (VDict m)
         = Ok (LoginOk ("JWT." +:+ department official_record +:+ "."
                        +:+ pretty (py_hash user))
                 (department official_record) (name official_record))).
Proof.
  intros Hu Hne Hp Hg.
  assert (∀ r, OFFICIALS_DB !! user = Some r →
            official_login py_hash (VDict m) = Ok LoginGovtIdMismatch
            ∨ official_login py_hash (VDict m)
              = Ok (LoginOk ("JWT." +:+ department r +:+ "."
                             +:+ pretty (py_hash user))
                      (department r) (name r))) as Hknown.
  { intros r Hdb. rewrite (official_login_known py_hash m user r Hu Hdb Hp Hg).
    destruct (str_ne _ _); auto. }
  split; [|exact Hknown].
  destruct (OFFICIALS_DB !! user) as [r|] eqn:Hdb.
  - split; [|done]. intros H. destruct (Hknown r eq_refl) as [H' | H'];
      rewrite H in H'; discriminate H'.
  - split; [done|]. intros _. rewrite official_login_dict. cbv zeta.
    rewrite Hu, Hp, Hg. cbn [from_option id truthy].
    apply String.eqb_neq in Hne. rewrite Hne, Hdb. done.
Qed.

Lemma login_reveals_registered_user_witness :
  let m : gmap string pyval :=
    {[ "username" := VStr "sara.smith@gov.in"; "password" := VInt 1;
       "govt_id" := VStr "guess" ]} in
  m !! "username" = Some (VStr "sara.smith@gov.in")
  ∧ "sara.smith@gov.in" ≠ ""
  ∧ (official_login (λ _, 0) (VDict m) = Ok LoginInvalidCredentials
     ↔ OFFICIALS_DB !! "sara.smith@gov.in" = None).
Proof.
  intros m.
  assert (m !! "username" = Some (VStr "sara.smith@gov.in")) as Hu
    by reflexivity.
  assert ("sara.smith@gov.in" ≠ "") as Hne by discriminate.
  split; [exact Hu|]. split; [exact Hne|].
  exact (proj1 (login_reveals_registered_user (λ _, 0) m "sara.smith@gov.in"
                  Hu Hne eq_refl eq_refl)).
Defined.

(** ** Tracking ids *)

(** X21. Two clock values get the same tracking id exactly when they are
    congruent modulo one million milliseconds; in particular a request
    1000 seconds after another one gets the same id. *)
Theorem tracking_id_collision (now1 now2 : Z) :
  (generate_unique_id now1 = generate_unique_id now2
   ↔ now1 `mod` 1000000 = now2 `mod` 1000000)
  ∧ generate_unique_id (now1 + 1000000) = generate_unique_id now1.
Proof.
  unfold generate_unique_id. split.
  - split; [|by intros ->].
    intros H. apply (inj (String.append "GRV-")) in H. by apply (inj pretty) in H.
  - f_equal. f_equal. rewrite <- (Z.mul_1_l 1000000) at 1.
    by rewrite Z.mod_add.
Qed.

(** ** Calls in sequence *)

(** X22. Routing calls served one after another, each with a score below
    8 and for a department that has officers, raise the total of open cases
    by exactly the number of calls. *)
Theorem sequential_calls_add_up (calls : list (string * Z)) (W : workloads) :
  NoDup W.*1 →
  (∀ c score, (c, score) ∈ calls →
     score < 8
     ∧ officers_of (target_department_of (first_piece (split "_" c))) W ≠ []) →
  total_open_cases (route_all calls W)
  = total_open_cases W + Z.of_nat (length calls)
  ∧ (route_all calls W).*1 = W.*1.
Proof.
  intros Hnd Hcalls. split; [by apply sequential_routing_total|].
  clear Hnd Hcalls. revert W.
  induction calls as [|[c score] calls IH]; intros W; simpl; [done|].
  by rewrite IH, smart_route_and_assign_keys.
Qed.

Lemma sequential_calls_add_up_witness :
  let calls := [("Water Supply", 4); ("Drainage", 7); ("Water Supply", 3)] in
  NoDup OFFICER_WORKLOADS.*1
  ∧ total_open_cases (route_all calls OFFICER_WORKLOADS)
    = total_open_cases OFFICER_WORKLOADS + 3.
Proof.
  intros calls.
  assert (NoDup OFFICER_WORKLOADS.*1) as Hnd
    by (apply (bool_decide_unpack _); vm_compute; exact I).
  split; [exact Hnd|].
  refine (proj1 (sequential_calls_add_up calls OFFICER_WORKLOADS Hnd _)).
  intros c score Hin.
  apply elem_of_cons in Hin as [[= -> ->] | Hin]; [split; [lia | discriminate]|].
  apply elem_of_cons in Hin as [[= -> ->] | Hin]; [split; [lia | discriminate]|].
  apply elem_of_cons in Hin as [[= -> ->] | Hin]; [split; [lia | discriminate]|].
  by apply elem_of_nil in Hin.
Defined.
